(** * Material Planning Assistant: the reporting engine

    A shallow embedding of the derived-view functions of
    [material_planning_assistant.py]: [calculate_project_status],
    [material_inquiry], [supplier_performance] and the bucket and verdict
    computation of [show_push_to_production].

    The pandas table is a list of rows.  Quantities are rationals (the
    spreadsheet floats, without rounding; [float_exact] describes the tables
    on which the float sums of the program are these exact ones).  The [delay] column holds either a
    number of days or the string ['late'], as the comparisons
    [delay == 'late'] of the source show; pandas stores such a column with
    dtype object, so a [max] or [mean] over a mix of both raises [TypeError]. *)

From Stdlib Require Import Arith QArith Qabs Qminmax List String Bool Lia Sorted Permutation.
Import ListNotations.
Open Scope string_scope.

(* ------------------------------------------------------------------ *)
(** ** Data model *)

(** One cell of the [delay] column. *)
Inductive delay_val :=
| DNum (d : Q)      (* a number of days, [0] when on time *)
| DLate.            (* the string ['late'] *)

(** One row of the "Study" sheet (the columns the views read). *)
Record row := mkRow {
  sec_order : string;
  sec_number : string;
  product : option string;      (* [None] is a NaN cell *)
  item : string;
  description : string;
  req_qty : Q;
  allocated_qty : Q;
  balance : Q;
  supply_type : string;
  source : string;
  locater : string;
  supplier : option string;     (* [None] is a NaN cell *)
  delay : delay_val
}.

Definition table := list row.

(** Python exceptions the views can raise. *)
Inductive exn := TypeError | UnboundLocalError.

(** A computation that returns a value or raises. *)
Inductive pyres (A : Type) :=
| Ret (a : A)
| Raise (e : exn).
Arguments Ret {A} a.
Arguments Raise {A} e.

Definition pbind {A B} (m : pyres A) (f : A -> pyres B) : pyres B :=
  match m with
  | Ret a => f a
  | Raise e => Raise e
  end.

Notation "x <- m ;; k" := (pbind m (fun x => k))
  (at level 61, m at next level, right associativity).

(* ------------------------------------------------------------------ *)
(** ** Element-wise comparisons of pandas columns *)

Definition q_eqb (x y : Q) : bool := Qeq_bool x y.
Definition q_gtb (x y : Q) : bool := negb (Qle_bool x y).   (* x > y *)

(** [s == 0] on the delay column: a string is never equal to [0]. *)
Definition delay_eq0 (d : delay_val) : bool :=
  match d with DNum x => q_eqb x 0 | DLate => false end.

(** [s == 'late'] on the delay column. *)
Definition delay_is_late (d : delay_val) : bool :=
  match d with DLate => true | DNum _ => false end.

(** [Series.sum()] of a numeric column (0 on an empty series). *)
Definition qsum (xs : list Q) : Q := fold_right Qplus 0 xs.

Definition col_sum (f : row -> Q) (t : table) : Q := qsum (map f t).

(** [col_sum] adds exactly, pandas adds float64 and rounds.  The two agree
    on a table whose quantities are whole numbers with absolute values
    summing to at most 2^53: every partial float sum is then a whole number
    of magnitude at most 2^53, which float64 represents exactly, whatever
    the order of the additions.  Properties that compare two different
    sums are stated for such tables. *)
Definition whole (x : Q) : bool := Pos.eqb (Qden (Qred x)) 1.

Definition float_exact (t : table) : bool :=
  forallb (fun r => whole (req_qty r) && whole (allocated_qty r) && whole (balance r)) t
  && Qle_bool (col_sum (fun r => Qabs (req_qty r) + Qabs (allocated_qty r)
                                  + Qabs (balance r)) t)
              (inject_Z (2 ^ 53)).

(** [Series.max()] of the delay column, on a non-empty series.  On numbers
    it is the largest one, on strings only it is ['late']; a mix of numbers
    and strings makes the object-dtype reduction compare a [str] with a
    number, which raises [TypeError]. *)
Fixpoint delay_max (d0 : delay_val) (ds : list delay_val) : pyres delay_val :=
  match ds with
  | [] => Ret d0
  | d :: ds' =>
      match d0, d with
      | DNum x, DNum y => delay_max (DNum (Qmax x y)) ds'
      | DLate, DLate => delay_max DLate ds'
      | _, _ => Raise TypeError
      end
  end.

(* ------------------------------------------------------------------ *)
(** ** [calculate_project_status] *)

Inductive status := SReady | SCritical | SPartial.

(** The returned dict; the supply breakdown and the two delivery dates are
    display data no claim reads, and are left out. *)
Record project_status := mkStatus {
  ps_status : status;
  ps_total_items : nat;
  ps_ready_items : nat;
  ps_partial_items : nat;
  ps_missing_items : nat;
  ps_total_req : Q;
  ps_total_allocated : Q;
  ps_total_balance : Q;
  ps_fulfillment_pct : Q;
  ps_max_delay : delay_val
}.

(** [df[df['SEC order'] == project]] *)
Definition project_rows (df : table) (project : string) : table :=
  filter (fun r => String.eqb (sec_order r) project) df.

Definition ready_count (t : table) : nat :=
  List.length (filter (fun r => q_eqb (balance r) 0) t).
Definition partial_count (t : table) : nat :=
  List.length (filter (fun r => q_gtb (balance r) 0 && q_gtb (allocated_qty r) 0) t).
Definition missing_count (t : table) : nat :=
  List.length (filter (fun r => q_eqb (allocated_qty r) 0) t).

(** [delayed_items['delay'].max() if not delayed_items.empty else 0] *)
Definition max_delay_of (t : table) : pyres delay_val :=
  match filter (fun r => negb (delay_eq0 (delay r))) t with
  | [] => Ret (DNum 0)
  | r :: rs => delay_max (delay r) (map delay rs)
  end.

(** The status cascade. *)
Definition overall_status (total_balance : Q) (missing : nat) (max_delay : delay_val)
  : status :=
  if q_eqb total_balance 0 then SReady
  else if Nat.ltb 0 missing || delay_is_late max_delay then SCritical
  else SPartial.

Definition fulfillment (total_allocated total_req : Q) : Q :=
  if q_gtb total_req 0 then total_allocated / total_req * 100 else 0.

(** [None] is the [return None] of an empty project. *)
Definition calculate_project_status (df : table) (project : string)
  : pyres (option project_status) :=
  let proj_data := project_rows df project in
  match proj_data with
  | [] => Ret None
  | _ =>
      let total_req := col_sum req_qty proj_data in
      let total_allocated := col_sum allocated_qty proj_data in
      let total_balance := col_sum balance proj_data in
      let ready := ready_count proj_data in
      let partial := partial_count proj_data in
      let missing := missing_count proj_data in
      md <- max_delay_of proj_data ;;
      Ret (Some (mkStatus (overall_status total_balance missing md)
                 (List.length proj_data) ready partial missing
                 total_req total_allocated total_balance
                 (fulfillment total_allocated total_req) md))
  end.

(* ------------------------------------------------------------------ *)
(** ** [material_inquiry] *)

(** The messages of the blocking-issue list, with the quantity each one
    formats ([f"... {q:.0f} ..."]). *)
Inductive issue :=
| StuckInQC (q : Q)        (* "units stuck in QC" *)
| InGRProcess (q : Q)      (* "units in GR process" *)
| OnDelayedPOs (q : Q)     (* "units on delayed POs" *)
| NeedPRCreation (q : Q).  (* "units need PR creation" *)

(** The returned dict; the two grouped breakdown tables are display data
    no claim reads, and are left out. *)
Record inquiry := mkInquiry {
  mi_description : string;
  mi_total_req : Q;
  mi_total_allocated : Q;
  mi_total_balance : Q;
  mi_blocking_issues : list issue;
  mi_item_data : table
}.

Definition rows_of_type (ty : string) (t : table) : table :=
  filter (fun r => String.eqb (supply_type r) ty) t.

(** [if not rows.empty: blocking_issues.append(msg)] *)
Definition issue_if (rows : table) (msg : issue) : list issue :=
  match rows with [] => [] | _ => [msg] end.

Definition blocking_issues (item_data : table) : list issue :=
  let qc_items := rows_of_type "QC" item_data in
  let gr_items := rows_of_type "GR_in_process" item_data in
  let po_late := filter (fun r => delay_is_late (delay r)) (rows_of_type "PO" item_data) in
  let pr_items := rows_of_type "PR" item_data in
  issue_if qc_items (StuckInQC (col_sum allocated_qty qc_items))
  ++ issue_if gr_items (InGRProcess (col_sum allocated_qty gr_items))
  ++ issue_if po_late (OnDelayedPOs (col_sum allocated_qty po_late))
  ++ issue_if pr_items (NeedPRCreation (col_sum balance pr_items)).

Definition material_inquiry (df : table) (item_code : string) : option inquiry :=
  let item_data := filter (fun r => String.eqb (item r) item_code) df in
  match item_data with
  | [] => None
  | r0 :: _ =>
      Some (mkInquiry (description r0)
              (col_sum req_qty item_data) (col_sum allocated_qty item_data)
              (col_sum balance item_data) (blocking_issues item_data) item_data)
  end.

(* ------------------------------------------------------------------ *)
(** ** [supplier_performance] *)

(** One row of [supplier_stats], after its columns are renamed. *)
Record supplier_stat := mkStat {
  ss_supplier : string;
  ss_delayed_items : nat;
  ss_avg_delay_days : Q;
  ss_max_delay_days : Q;
  ss_total_qty_delayed : Q
}.

(** [df[df['supplier'].notna()]], each row paired with its supplier. *)
Fixpoint supplier_rows (df : table) : list (string * row) :=
  match df with
  | [] => []
  | r :: rs =>
      match supplier r with
      | Some s => (s, r) :: supplier_rows rs
      | None => supplier_rows rs
      end
  end.

(** The group keys of [groupby('supplier')], in order of first occurrence.
    pandas sorts the keys; the order only matters among rows of equal mean,
    which the unstable [sort_values] below does not keep anyway. *)
Fixpoint group_keys (ks : list string) : list string :=
  match ks with
  | [] => []
  | k :: ks' => k :: filter (fun k' => negb (String.eqb k' k)) (group_keys ks')
  end.

(** The numeric values of the delay column of a group; a ['late'] cell makes
    the [mean] aggregation of the object column raise [TypeError]. *)
Fixpoint delay_numbers (ds : list delay_val) : pyres (list Q) :=
  match ds with
  | [] => Ret []
  | DNum d :: ds' => xs <- delay_numbers ds' ;; Ret (d :: xs)
  | DLate :: _ => Raise TypeError
  end.

Definition qmax_list (x0 : Q) (xs : list Q) : Q := fold_left Qmax xs x0.

(** [agg({'delay': ['count', 'mean', 'max'], 'allocated_qty': 'sum'})] on
    the rows of one (non-empty) group. *)
Definition agg_group (s : string) (grp : table) : pyres supplier_stat :=
  xs <- delay_numbers (map delay grp) ;;
  match xs with
  | [] => Raise TypeError   (* groups are never empty *)
  | x :: xs' =>
      Ret (mkStat s (List.length grp)
             (qsum xs / inject_Z (Z.of_nat (List.length xs)))
             (qmax_list x xs')
             (col_sum allocated_qty grp))
  end.

Fixpoint pmap {A B} (f : A -> pyres B) (l : list A) : pyres (list B) :=
  match l with
  | [] => Ret []
  | a :: l' => b <- f a ;; bs <- pmap f l' ;; Ret (b :: bs)
  end.

(** [sort_values('avg_delay_days', ascending=False)] *)
Fixpoint insert_desc (x : supplier_stat) (l : list supplier_stat) : list supplier_stat :=
  match l with
  | [] => [x]
  | y :: l' =>
      if Qle_bool (ss_avg_delay_days y) (ss_avg_delay_days x) then x :: l
      else y :: insert_desc x l'
  end.

Definition sort_desc (l : list supplier_stat) : list supplier_stat :=
  fold_right insert_desc [] l.

(** The delayed rows ([delay != 0]) of one supplier. *)
Definition group_of (delayed : list (string * row)) (s : string) : table :=
  map snd (filter (fun p => String.eqb (fst p) s) delayed).

(** [supplier_data[supplier_data['delay'] != 0]] *)
Definition delayed_rows (supplier_data : list (string * row)) : list (string * row) :=
  filter (fun p => negb (delay_eq0 (delay (snd p)))) supplier_data.

(** [delayed.groupby('supplier').agg(...).reset_index()] *)
Definition supplier_stats_of (supplier_data : list (string * row)) : pyres (list supplier_stat) :=
  let delayed := delayed_rows supplier_data in
  pmap (fun s => agg_group s (group_of delayed s)) (group_keys (map fst delayed)).

Definition supplier_performance (df : table) : pyres (option (list supplier_stat)) :=
  let supplier_data := supplier_rows df in
  match supplier_data with
  | [] => Ret None
  | _ =>
      stats <- supplier_stats_of supplier_data ;;
      Ret (Some (sort_desc stats))
  end.

(* ------------------------------------------------------------------ *)
(** ** [show_push_to_production]: selection, buckets and verdict *)

(** The "Filter by" radio button. *)
Inductive filter_type := BySecOrder | BySecNumber | ByProduct.

Definition filter_key (ft : filter_type) (r : row) : option string :=
  match ft with
  | BySecOrder => Some (sec_order r)
  | BySecNumber => Some (sec_number r)
  | ByProduct => product r
  end.

(** [Series.isin(values)]; a NaN cell is in no list of strings. *)
Definition in_list (s : string) (l : list string) : bool :=
  existsb (String.eqb s) l.
Definition isin (x : option string) (l : list string) : bool :=
  match x with Some s => in_list s l | None => false end.

(** [df[df[col].isin(selected)].copy() if selected else pd.DataFrame()] *)
Definition filter_rows (ft : filter_type) (selected : list string) (df : table) : table :=
  match selected with
  | [] => []
  | _ => filter (fun r => isin (filter_key ft r) selected) df
  end.

(** [fulfillment] is assigned only under
    [not filtered_df.empty and filtered_df['req_qty'].sum() > 0]. *)
Definition fulfillment_var (filtered_df : table) : option Q :=
  match filtered_df with
  | [] => None
  | _ =>
      if q_gtb (col_sum req_qty filtered_df) 0
      then Some (col_sum allocated_qty filtered_df / col_sum req_qty filtered_df * 100)
      else None
  end.

Definition is_qc (r : row) : bool := String.eqb (supply_type r) "QC".
Definition is_gr (r : row) : bool := String.eqb (supply_type r) "GR_in_process".
Definition is_wip (r : row) : bool := String.eqb (locater r) "1-1-1-1".
Definition is_realloc (selected : list string) (r : row) : bool :=
  String.eqb (supply_type r) "inventory"
  && negb (String.eqb (source r) "free_stock")
  && negb (in_list (source r) selected).
Definition is_missing (r : row) : bool :=
  q_gtb (balance r) 0 && q_eqb (allocated_qty r) 0.

Record buckets := mkBuckets {
  qc_items : table;
  gr_items : table;
  wip_items : table;
  allocate_items : table;
  missing_items : table
}.

Definition make_buckets (selected : list string) (filtered_df : table) : buckets :=
  mkBuckets (filter is_qc filtered_df) (filter is_gr filtered_df)
            (filter is_wip filtered_df) (filter (is_realloc selected) filtered_df)
            (filter is_missing filtered_df).

Definition total_blocking (b : buckets) : nat :=
  List.length (qc_items b) + List.length (gr_items b) + List.length (missing_items b).

Inductive verdict := AllClear | AlmostReady | NotReady.

Definition verdict_of (blocking : nat) (fulfillment : Q) : verdict :=
  if Nat.eqb blocking 0 && Qle_bool 100 fulfillment then AllClear
  else if Nat.leb blocking 3 && Qle_bool 90 fulfillment then AlmostReady
  else NotReady.

(** What the view ends with: the "please select" message and [return], or
    the five buckets and the readiness verdict. *)
Inductive push_view :=
| SelectPrompt
| Report (b : buckets) (v : verdict).

(** Reading [fulfillment] where it was never assigned raises
    [UnboundLocalError]. *)
Definition read_local {A} (x : option A) : pyres A :=
  match x with Some a => Ret a | None => Raise UnboundLocalError end.

(** The verdict cascade of lines 878-883.  Python's [and] evaluates its
    right operand only when the left one holds, so [fulfillment] is read in
    the first test only when there is no blocker, and in the second only
    when there are at most 3. *)
Definition verdict_py (total_blocking : nat) (fulfillment : option Q) : pyres verdict :=
  c1 <- (if Nat.eqb total_blocking 0
         then f <- read_local fulfillment ;; Ret (Qle_bool 100 f)
         else Ret false) ;;
  if c1 then Ret AllClear else
  c2 <- (if Nat.leb total_blocking 3
         then f <- read_local fulfillment ;; Ret (Qle_bool 90 f)
         else Ret false) ;;
  if c2 then Ret AlmostReady else Ret NotReady.

Definition show_push_to_production (ft : filter_type) (selected : list string) (df : table)
  : pyres push_view :=
  let filtered_df := filter_rows ft selected df in
  let fulfillment := fulfillment_var filtered_df in
  match filtered_df, selected with
  | [], _ | _, [] => Ret SelectPrompt
  | _, _ =>
      let b := make_buckets selected filtered_df in
      v <- verdict_py (total_blocking b) fulfillment ;;
      Ret (Report b v)
  end.

(* ------------------------------------------------------------------ *)
(** ** The object heap the views run on

    The loaded table is one DataFrame object, passed by reference to every
    view.  The views create new frames ([.copy()], boolean indexing,
    [groupby(...).agg(...).reset_index()], [sort_values], [pd.DataFrame])
    and mutate some of them in place ([.columns = [...]],
    [frame['col'] = ...]).  Frames are kept at locations of a heap that only
    grows; a state monad over it, with Python's exceptions, runs the views. *)

Inductive obj :=
| OTable (columns : list string) (rows : table)
| OStats (columns : list string) (rows : list supplier_stat)
| OOther (columns : list string).     (* a frame whose contents no claim reads *)

Definition heap := list obj.
Definition loc := nat.

Definition st (A : Type) := heap -> pyres A * heap.

Definition sret {A} (a : A) : st A := fun h => (Ret a, h).

Definition sbind {A B} (m : st A) (k : A -> st B) : st B :=
  fun h => match m h with
           | (Ret a, h1) => k a h1
           | (Raise e, h1) => (Raise e, h1)
           end.

Notation "x <-- m ;;; k" := (sbind m (fun x => k))
  (at level 61, m at next level, right associativity).

(** Evaluate a pure expression; its exception propagates. *)
Definition lift {A} (p : pyres A) : st A := fun h => (p, h).

(** A new object, at the next free location. *)
Definition alloc (o : obj) : st loc := fun h => (Ret (List.length h), List.app h [o]).

(** Dereference; locations come from [alloc], a dangling one is an error. *)
Definition deref (l : loc) : st obj :=
  fun h => match nth_error h l with
           | Some o => (Ret o, h)
           | None => (Raise TypeError, h)
           end.

Fixpoint update_nth {A} (i : nat) (f : A -> A) (l : list A) : list A :=
  match l, i with
  | [], _ => []
  | x :: l', O => f x :: l'
  | x :: l', S i' => x :: update_nth i' f l'
  end.

(** In-place mutation of the object at [l]. *)
Definition mutate (l : loc) (f : obj -> obj) : st unit :=
  fun h => (Ret tt, update_nth l f h).

Definition obj_columns (o : obj) : list string :=
  match o with OTable c _ | OStats c _ | OOther c => c end.

Definition with_columns (cs : list string) (o : obj) : obj :=
  match o with
  | OTable _ t => OTable cs t
  | OStats _ s => OStats cs s
  | OOther _ => OOther cs
  end.

(** [frame.columns = cs] *)
Definition set_columns (l : loc) (cs : list string) : st unit :=
  mutate l (with_columns cs).

(** [frame[c] = ...] *)
Definition add_column (l : loc) (c : string) : st unit :=
  mutate l (fun o => with_columns (obj_columns o ++ [c]) o).

Definition obj_rows (o : obj) : table :=
  match o with OTable _ t => t | _ => [] end.

Definition study_columns : list string :=
  ["SEC order"; "SEC Number"; "product"; "item"; "description"; "req_qty";
   "allocated_qty"; "balance"; "supply_type"; "source"; "locater";
   "supplier"; "delay"].

(** ** The views as heap programs

    Each takes the location of the loaded table, mirrors the frames the
    source creates and mutates, and computes its value with the pure
    definitions above. *)

Definition when_rows (rows : table) (m : st unit) : st unit :=
  match rows with [] => sret tt | _ => m end.

Definition calculate_project_status_h (df : loc) (project : string)
  : st (option project_status) :=
  o <-- deref df ;;;
  _ <-- alloc (OTable (obj_columns o) (project_rows (obj_rows o) project)) ;;;
  lift (calculate_project_status (obj_rows o) project).

Definition material_inquiry_h (df : loc) (item_code : string) : st (option inquiry) :=
  o <-- deref df ;;;
  let item_data := filter (fun r => String.eqb (item r) item_code) (obj_rows o) in
  _ <-- alloc (OTable (obj_columns o) item_data) ;;;
  match item_data with
  | [] => sret None
  | _ =>
      _ <-- alloc (OOther ["SEC order"; "req_qty"; "allocated_qty"; "balance"]) ;;;
      _ <-- alloc (OOther ["supply_type"; "source"; "allocated_qty"]) ;;;
      _ <-- alloc (OTable (obj_columns o) (rows_of_type "QC" item_data)) ;;;
      _ <-- alloc (OTable (obj_columns o) (rows_of_type "GR_in_process" item_data)) ;;;
      _ <-- alloc (OTable (obj_columns o)
                     (filter (fun r => delay_is_late (delay r))
                        (rows_of_type "PO" item_data))) ;;;
      _ <-- alloc (OTable (obj_columns o) (rows_of_type "PR" item_data)) ;;;
      sret (material_inquiry (obj_rows o) item_code)
  end.

Definition supplier_performance_h (df : loc) : st (option loc) :=
  o <-- deref df ;;;
  let supplier_data := supplier_rows (obj_rows o) in
  _ <-- alloc (OTable (obj_columns o) (map snd supplier_data)) ;;;
  match supplier_data with
  | [] => sret None
  | _ =>
      _ <-- alloc (OTable (obj_columns o) (map snd (delayed_rows supplier_data))) ;;;
      stats <-- lift (supplier_stats_of supplier_data) ;;;
      s <-- alloc (OStats ["supplier"; "delay count"; "delay mean"; "delay max";
                          "allocated_qty sum"] stats) ;;;
      _ <-- set_columns s ["supplier"; "delayed_items"; "avg_delay_days";
                           "max_delay_days"; "total_qty_delayed"] ;;;
      s' <-- alloc (OStats ["supplier"; "delayed_items"; "avg_delay_days";
                           "max_delay_days"; "total_qty_delayed"] (sort_desc stats)) ;;;
      sret (Some s')
  end.

Fixpoint smap {A B} (f : A -> st B) (l : list A) : st (list B) :=
  match l with
  | [] => sret []
  | a :: l' => b <-- f a ;;; bs <-- smap f l' ;;; sret (b :: bs)
  end.

Definition readiness_columns : list string :=
  ["Project"; "Status"; "Fulfillment %"; "Missing Items"; "Max Delay"; "SEC Delivery"].

Definition production_readiness_h (df : loc) : st loc :=
  o <-- deref df ;;;
  let projects := group_keys (map sec_order (obj_rows o)) in
  _ <-- smap (calculate_project_status_h df) projects ;;;
  _ <-- alloc (OOther readiness_columns) ;;;
  alloc (OOther readiness_columns).

(** [items[[...]].copy()] and its [.columns = [...]] *)
Definition display_frame (rows : table) (cols shown : list string) : st unit :=
  d <-- alloc (OTable cols rows) ;;;
  set_columns d shown.

Definition show_push_to_production_h (ft : filter_type) (selected : list string) (df : loc)
  : st push_view :=
  o <-- deref df ;;;
  let filtered_df := filter_rows ft selected (obj_rows o) in
  _ <-- alloc (OTable (obj_columns o) filtered_df) ;;;
  match filtered_df, selected with
  | [], _ | _, [] => sret SelectPrompt
  | _, _ =>
      let b := make_buckets selected filtered_df in
      _ <-- alloc (OTable (obj_columns o) (qc_items b)) ;;;
      _ <-- when_rows (qc_items b)
              (display_frame (qc_items b)
                 ["item"; "description"; "allocated_qty"; "locater"; "supplier";
                  "availability_date"]
                 ["Item Code"; "Description"; "Qty in QC";
                                           "PO-Line"; "Supplier"; "Received Date"]) ;;;
      _ <-- alloc (OTable (obj_columns o) (gr_items b)) ;;;
      _ <-- when_rows (gr_items b)
              (display_frame (gr_items b)
                 ["item"; "description"; "allocated_qty"; "locater"; "supplier";
                  "availability_date"]
                 ["Item Code"; "Description"; "Qty Pending GR";
                                           "PO-Line"; "Supplier"; "Receipt Date"]) ;;;
      _ <-- alloc (OTable (obj_columns o) (wip_items b)) ;;;
      _ <-- when_rows (wip_items b)
              (display_frame (wip_items b)
                 ["item"; "description"; "allocated_qty"; "source"; "locater"]
                 ["Item Code"; "Description"; "Available Qty";
                                            "Source Job"; "Locater"]) ;;;
      _ <-- alloc (OTable (obj_columns o) (allocate_items b)) ;;;
      _ <-- when_rows (allocate_items b)
              (d <-- alloc (OTable ["item"; "description"; "allocated_qty"; "SEC order";
                                    "source"; "locater"] (allocate_items b)) ;;;
               _ <-- set_columns d ["Item Code"; "Description"; "Qty to Reallocate";
                                    "Project"; "Source Project"; "Locater"] ;;;
               add_column d "Action Required") ;;;
      _ <-- alloc (OTable (obj_columns o) (missing_items b)) ;;;
      _ <-- when_rows (missing_items b)
              (display_frame (missing_items b)
                 ["item"; "description"; "req_qty"; "balance"]
                 ["Item Code"; "Description";
                                                "Required Qty"; "Missing Qty"]) ;;;
      v <-- lift (show_push_to_production ft selected (obj_rows o)) ;;;
      _ <-- alloc (OOther ["Category"; "Count"]) ;;;
      sret v
  end.

(* ------------------------------------------------------------------ *)
(** ** [production_readiness] and [show_production_readiness] *)

(** One entry of [readiness_list]; the SEC delivery date is display data
    and is left out. *)
Record readiness_row := mkReadiness {
  rd_project : string;
  rd_status : status;
  rd_fulfillment : Q;
  rd_missing_items : nat;
  rd_max_delay : delay_val
}.

(** The loop over [df['SEC order'].unique()]: a project with a status gets
    an entry, and an exception of [calculate_project_status] propagates. *)
Fixpoint readiness_list (df : table) (projects : list string) : pyres (list readiness_row) :=
  match projects with
  | [] => Ret []
  | p :: ps =>
      info <- calculate_project_status df p ;;
      rest <- readiness_list df ps ;;
      Ret (match info with
           | Some s => mkReadiness p (ps_status s) (ps_fulfillment_pct s)
                         (ps_missing_items s) (ps_max_delay s) :: rest
           | None => rest
           end)
  end.

(** [sort_values('Fulfillment %', ascending=False)].  The default quicksort
    is not stable, so the source fixes no order among equal percentages;
    this insertion sort picks one. *)
Fixpoint insert_fulfillment (x : readiness_row) (l : list readiness_row)
  : list readiness_row :=
  match l with
  | [] => [x]
  | y :: l' =>
      if Qle_bool (rd_fulfillment y) (rd_fulfillment x) then x :: l
      else y :: insert_fulfillment x l'
  end.

Definition sort_fulfillment (l : list readiness_row) : list readiness_row :=
  fold_right insert_fulfillment [] l.

(** What [production_readiness] ends with: an exception of the loop, the
    [KeyError] of [sort_values] on a frame without the column, or the
    sorted frame. *)
Inductive readiness_result :=
| RRaise (e : exn)
| RKeyError (key : string)
| RFrame (rows : list readiness_row).

(** [pd.DataFrame([])] has no column at all, so sorting it by
    ['Fulfillment %'] raises [KeyError]. *)
Definition production_readiness (df : table) : readiness_result :=
  match readiness_list df (group_keys (map sec_order df)) with
  | Raise e => RRaise e
  | Ret [] => RKeyError "Fulfillment %"
  | Ret rows => RFrame (sort_fulfillment rows)
  end.

(** The rows shown, for the checkbox "Show only 100% ready" and the
    slider's minimum. *)
Definition readiness_filter (show_only_ready : bool) (min_fulfillment : Q)
  (rows : list readiness_row) : list readiness_row :=
  if show_only_ready then filter (fun r => q_eqb (rd_fulfillment r) 100) rows
  else filter (fun r => Qle_bool min_fulfillment (rd_fulfillment r)) rows.

(** [filtered_df[filtered_df['Fulfillment %'] == 100]['Project'].tolist()] *)
Definition ready_projects (filtered : list readiness_row) : list string :=
  map rd_project (filter (fun r => q_eqb (rd_fulfillment r) 100) filtered).

(* ------------------------------------------------------------------ *)
(** ** [show_dashboard_overview] *)

(** The [status_counts] dict.  The status strings are "🟢 Ready",
    "🔴 Critical" and "🟡 Partial": the green mark is in the first only, the
    yellow one in the last only, and the [else] branch takes Critical. *)
Record status_counts := mkCounts {
  n_ready : nat;
  n_partial : nat;
  n_critical : nat
}.

Definition count_status (c : status_counts) (s : status) : status_counts :=
  match s with
  | SReady => mkCounts (S (n_ready c)) (n_partial c) (n_critical c)
  | SPartial => mkCounts (n_ready c) (S (n_partial c)) (n_critical c)
  | SCritical => mkCounts (n_ready c) (n_partial c) (S (n_critical c))
  end.

Fixpoint count_statuses (df : table) (projects : list string) (c : status_counts)
  : pyres status_counts :=
  match projects with
  | [] => Ret c
  | p :: ps =>
      info <- calculate_project_status df p ;;
      count_statuses df ps
        (match info with Some s => count_status c (ps_status s) | None => c end)
  end.

(** The metrics, the status counts and the delayed rows shown; the pie
    chart of the supply types is display data and is left out. *)
Record dashboard := mkDashboard {
  db_total_projects : nat;
  db_total_items : nat;
  db_overall_fulfillment : Q;
  db_total_balance : Q;
  db_status_counts : status_counts;
  db_delayed : table
}.

Definition show_dashboard_overview (df : table) : pyres dashboard :=
  let total_projects := List.length (group_keys (map sec_order df)) in
  let total_items := List.length df in
  let total_req := col_sum req_qty df in
  let total_allocated := col_sum allocated_qty df in
  let overall_fulfillment :=
    if q_gtb total_req 0 then total_allocated / total_req * 100 else 0 in
  counts <- count_statuses df (group_keys (map sec_order df)) (mkCounts O O O) ;;
  Ret (mkDashboard total_projects total_items overall_fulfillment (col_sum balance df)
         counts (firstn 10 (filter (fun r => negb (delay_eq0 (delay r))) df))).

(* ------------------------------------------------------------------ *)
(** ** [show_project_health] *)

(** [get_item_status]: the labels "✅ Ready", "🔴 Missing", "🟡 Partial". *)
Inductive item_status := IReady | IMissing | IPartial.

Definition get_item_status (r : row) : item_status :=
  if q_eqb (balance r) 0 then IReady
  else if q_eqb (allocated_qty r) 0 then IMissing
  else IPartial.

Definition item_status_eqb (a b : item_status) : bool :=
  match a, b with
  | IReady, IReady | IMissing, IMissing | IPartial, IPartial => true
  | _, _ => false
  end.

(** The warnings of the "Blocking Issues" list, with the count each one
    formats. *)
Inductive health_issue :=
| ItemsMissing (n : nat)     (* "items completely missing" *)
| ItemsInQC (n : nat)        (* "items stuck in QC" *)
| ItemsInGR (n : nat).       (* "items in GR process" *)

Definition health_blocking (s : project_status) (proj_data : table) : list health_issue :=
  (if Nat.ltb 0 (ps_missing_items s) then [ItemsMissing (ps_missing_items s)] else [])
  ++ (match filter is_qc proj_data with [] => [] | qc => [ItemsInQC (List.length qc)] end)
  ++ (match filter is_gr proj_data with [] => [] | gr => [ItemsInGR (List.length gr)] end).

Record health_view := mkHealth {
  hv_status : project_status;
  hv_item_status : list item_status;
  hv_blocking : list health_issue
}.

(** [if selected_project:] skips the empty string; a project without a
    status shows nothing. *)
Definition show_project_health (df : table) (selected_project : string)
  : pyres (option health_view) :=
  if String.eqb selected_project "" then Ret None else
  info <- calculate_project_status df selected_project ;;
  match info with
  | None => Ret None
  | Some s =>
      let proj_data := project_rows df selected_project in
      Ret (Some (mkHealth s (map get_item_status proj_data) (health_blocking s proj_data)))
  end.

(* ------------------------------------------------------------------ *)
(** ** [show_critical_projects] *)

(** One entry of [critical_list].  Its "Days to SEC Delivery" is computed
    from [pd.Timestamp.now()] and the list is sorted on it: the clock is
    outside the model, which keeps the entries in the order of the loop. *)
Record critical_row := mkCritical {
  cr_project : string;
  cr_fulfillment : Q;
  cr_missing_items : nat;
  cr_max_delay : delay_val
}.

(** ['🔴' in status]: the red mark is in "🔴 Critical" only. *)
Definition is_critical (s : status) : bool :=
  match s with SCritical => true | _ => false end.

Fixpoint critical_list (df : table) (projects : list string) : pyres (list critical_row) :=
  match projects with
  | [] => Ret []
  | p :: ps =>
      info <- calculate_project_status df p ;;
      rest <- critical_list df ps ;;
      Ret (match info with
           | Some s =>
               if is_critical (ps_status s)
               then mkCritical p (ps_fulfillment_pct s) (ps_missing_items s)
                      (ps_max_delay s) :: rest
               else rest
           | None => rest
           end)
  end.

Definition critical_projects (df : table) : pyres (list critical_row) :=
  critical_list df (group_keys (map sec_order df)).

(** The deep dive: [proj_data[(proj_data['balance'] > 0) | (proj_data['delay'] != 0)]] *)
Definition problem_items (df : table) (selected : string) : table :=
  filter (fun r => q_gtb (balance r) 0 || negb (delay_eq0 (delay r)))
    (project_rows df selected).

(* ------------------------------------------------------------------ *)
(** ** [show_supplier_performance]: the drill-down *)

(** [df[(df['supplier'] == selected_supplier) & (df['delay'] != 0)]]; a NaN
    supplier equals no string. *)
Definition supplier_items (df : table) (selected_supplier : string) : table :=
  filter (fun r => match supplier r with
                   | Some s => String.eqb s selected_supplier
                   | None => false
                   end && negb (delay_eq0 (delay r))) df.

(* ------------------------------------------------------------------ *)
(** ** [show_push_to_production]: the "Action Required" column *)

Inductive action := NeedsApproval | CanReallocate.

(** [lambda x: 'Needs Approval' if x not in ['free_stock', '-'] else 'Can Reallocate'] *)
Definition action_required (source_project : string) : action :=
  if in_list source_project ["free_stock"; "-"] then CanReallocate else NeedsApproval.

(* ------------------------------------------------------------------ *)
(** ** [material_inquiry]: the allocation by project *)

(** One row of [allocation_by_project]. *)
Record alloc_entry := mkAlloc {
  ae_project : string;
  ae_req : Q;
  ae_allocated : Q;
  ae_balance : Q
}.

(** [groupby] sorts its keys; Python orders strings by code point, which
    is the byte order of their UTF-8 encodings, the order of [String.leb]. *)
Fixpoint insert_key (k : string) (ks : list string) : list string :=
  match ks with
  | [] => [k]
  | k' :: ks' => if String.leb k k' then k :: ks else k' :: insert_key k ks'
  end.

Definition sort_keys (ks : list string) : list string := fold_right insert_key [] ks.

(** [item_data.groupby('SEC order').agg({'req_qty': 'sum', 'allocated_qty':
    'sum', 'balance': 'sum'}).reset_index()] *)
Definition allocation_by_project (item_data : table) : list alloc_entry :=
  map (fun p => let g := project_rows item_data p in
                mkAlloc p (col_sum req_qty g) (col_sum allocated_qty g) (col_sum balance g))
      (sort_keys (group_keys (map sec_order item_data))).

(* ------------------------------------------------------------------ *)
(** ** Auxiliary definitions of the proofs, and concrete tables *)

Definition b2n (b : bool) : nat := if b then 1 else 0.

Definition double_count (t : table) : nat :=
  List.length (filter (fun r => q_eqb (balance r) 0 && q_eqb (allocated_qty r) 0) t).

(** Rows for the concrete cases below: project, item, supply type, source,
    locater, quantities, supplier and delay. *)
Definition sample_row (p it ty src lc : string) (req alloc bal : Q)
  (sup : option string) (d : delay_val) : row :=
  mkRow p p None it "" req alloc bal ty src lc sup d.

(** The example of the spec: project "P1" with one covered and one missing row. *)
Definition p1_table : table :=
  [sample_row "P1" "ITM1" "inventory" "free_stock" "A-1" 10 10 0 None (DNum 0);
   sample_row "P1" "ITM2" "PR" "-" "-" 5 0 5 None (DNum 0)].

(** A project whose delayed rows mix a number of days and ['late']. *)
Definition mixed_delay_table : table :=
  [sample_row "P" "ITM1" "PO" "-" "-" 3 3 0 None (DNum 5);
   sample_row "P" "ITM2" "PO" "-" "-" 3 3 0 None DLate].

(** The spec's example: item "ITM1" with a QC row allocating 3 and a PR row
    with balance 2. *)
Definition itm1_table : table :=
  [sample_row "P1" "ITM1" "QC" "PO-7" "PO-7/1" 3 3 0 (Some "S1") (DNum 0);
   sample_row "P2" "ITM1" "PR" "-" "-" 2 0 2 None (DNum 0)].

(** The spec's example: two inventory rows of project "ProjA", one reserved
    for "ProjB", one from free stock. *)
Definition realloc_row : row :=
  sample_row "ProjA" "ITM1" "inventory" "ProjB" "A-1" 4 4 0 None (DNum 0).
Definition free_stock_row : row :=
  sample_row "ProjA" "ITM2" "inventory" "free_stock" "A-2" 4 4 0 None (DNum 0).

(** Four QC rows of project P0 with required quantity 0. *)
Definition qc_zero_table : table :=
  [sample_row "P0" "ITM1" "QC" "PO-1" "PO-1/1" 0 0 0 None (DNum 0);
   sample_row "P0" "ITM2" "QC" "PO-1" "PO-1/2" 0 0 0 None (DNum 0);
   sample_row "P0" "ITM3" "QC" "PO-1" "PO-1/3" 0 0 0 None (DNum 0);
   sample_row "P0" "ITM4" "QC" "PO-1" "PO-1/4" 0 0 0 None (DNum 0)].

(** Project P1 with one row whose quantities are all 0. *)
Definition zero_row_table : table :=
  [sample_row "P1" "ITM1" "PR" "-" "-" 0 0 0 None (DNum 0)].

(** A selection whose required total is 0. *)
Definition zero_req_table : table :=
  [sample_row "P0" "ITM1" "PR" "-" "-" 0 0 0 None (DNum 0)].

(** Work-in-process stock reserved for another project, and a QC row with
    nothing allocated yet. *)
Definition wip_row : row :=
  sample_row "ProjA" "ITM3" "inventory" "ProjB" "1-1-1-1" 2 2 0 None (DNum 0).
Definition qc_unallocated_row : row :=
  sample_row "ProjA" "ITM4" "QC" "PO-9" "PO-9/1" 5 0 5 (Some "S2") (DNum 0).

(** [m] keeps the first [n] heap cells as they are, and never shrinks the
    heap below them. *)
Definition keeps_below {A} (n : nat) (m : st A) : Prop :=
  forall h, (n <= List.length h)%nat ->
    (n <= List.length (snd (m h)))%nat /\
    forall i, (i < n)%nat -> nth_error (snd (m h)) i = nth_error h i.

(** [sort_values(ascending=False)]: a permutation, in descending order of
    mean delay. *)
Definition avg_desc (a b : supplier_stat) : Prop :=
  ss_avg_delay_days b <= ss_avg_delay_days a.

(** The delayed rows of one supplier. *)
Definition delayed_supplier_rows (df : table) (s : string) : table :=
  filter (fun r => match supplier r with
                   | Some s' => String.eqb s' s
                   | None => false
                   end && negb (delay_eq0 (delay r))) df.

(** The days of a numeric delay. *)
Definition delay_days (r : row) : Q :=
  match delay r with DNum d => d | DLate => 0 end.

(** The statistics of one supplier, from the rows of its group. *)
Definition stat_of_rows (st : supplier_stat) (rows : table) : Prop :=
  ss_delayed_items st = List.length rows /\
  ss_avg_delay_days st
    = qsum (map delay_days rows) / inject_Z (Z.of_nat (List.length rows)) /\
  In (ss_max_delay_days st) (map delay_days rows) /\
  (forall r, In r rows -> delay_days r <= ss_max_delay_days st) /\
  ss_total_qty_delayed st = col_sum allocated_qty rows.

(** The table of the counterexamples: one PO with a supplier and the
    ['late'] delay. *)
Definition late_po_table : table :=
  [sample_row "P1" "ITM1" "PO" "PO-5" "PO-5/1" 3 3 0 (Some "S1") DLate].

(** Two suppliers with numeric delays, and one row on time. *)
Definition supplier_table : table :=
  [sample_row "P1" "ITM1" "PO" "PO-1" "PO-1/1" 4 4 0 (Some "S1") (DNum 2);
   sample_row "P1" "ITM2" "PO" "PO-2" "PO-2/1" 6 6 0 (Some "S2") (DNum 10);
   sample_row "P2" "ITM1" "PO" "PO-1" "PO-1/2" 1 1 0 (Some "S1") (DNum 4);
   sample_row "P2" "ITM3" "PO" "PO-3" "PO-3/1" 2 2 0 (Some "S3") (DNum 0)].

(** The rows of a table whose delay is not zero, as [max_delay_of] filters them. *)
Definition delayed_items (t : table) : table :=
  filter (fun r => negb (delay_eq0 (delay r))) t.

(** The order of the readiness frame: fulfillment descending. *)
Definition fulfillment_desc (a b : readiness_row) : Prop :=
  rd_fulfillment b <= rd_fulfillment a.

(** The readiness row that [production_readiness] builds from a project status. *)
Definition readiness_of (p : string) (s : project_status) : readiness_row :=
  mkReadiness p (ps_status s) (ps_fulfillment_pct s) (ps_missing_items s) (ps_max_delay s).

(** The number of projects a status tally has counted. *)
Definition count_total (c : status_counts) : nat := n_ready c + n_partial c + n_critical c.

(** How many items of a project health view carry a given status label. *)
Definition label_count (l : item_status) (labels : list item_status) : nat :=
  List.length (filter (item_status_eqb l) labels).

(** Three projects: one fully allocated, one missing, one without requirement. *)
Definition readiness_table : table :=
  [sample_row "P1" "ITM1" "inventory" "free_stock" "A-1" 10 10 0 None (DNum 0);
   sample_row "P2" "ITM2" "PR" "-" "-" 5 0 5 None (DNum 0);
   sample_row "P3" "ITM3" "PR" "-" "-" 0 0 0 None (DNum 0)].


(* ================================================================== *)
(** * Properties *)

(** ** Comparison facts *)

Lemma q_eqb_true x y : q_eqb x y = true <-> x == y.
Proof. unfold q_eqb. apply Qeq_bool_iff. Qed.

Lemma q_gtb_true x y : q_gtb x y = true <-> y < x.
Proof.
  unfold q_gtb. rewrite negb_true_iff. split.
  - intros H. apply Qnot_le_lt. intros H'. apply Qle_bool_iff in H'. congruence.
  - intros H. destruct (Qle_bool x y) eqn:E; auto.
    apply Qle_bool_iff in E. exfalso. apply (Qlt_not_le y x); auto.
Qed.

Lemma q_gtb_false x y : q_gtb x y = false <-> x <= y.
Proof.
  unfold q_gtb. rewrite negb_false_iff. apply Qle_bool_iff.
Qed.

Lemma q_eqb_false x y : q_eqb x y = false <-> ~ x == y.
Proof.
  rewrite <- q_eqb_true. destruct (q_eqb x y); split; congruence.
Qed.

(** ** Project status: counts *)

Lemma length_filter_cons {A} (f : A -> bool) x l :
  (List.length (filter f (x :: l)) = b2n (f x) + List.length (filter f l))%nat.
Proof. simpl. destruct (f x); reflexivity. Qed.

(** One row falls in Ready, Partial or Missing, and in two of them exactly
    when both its balance and its allocation are 0. *)
Lemma row_counts x y :
  0 <= x -> 0 <= y ->
  (b2n (q_eqb x 0) + b2n (q_gtb x 0 && q_gtb y 0) + b2n (q_eqb y 0)
   = 1 + b2n (q_eqb x 0 && q_eqb y 0))%nat.
Proof.
  intros Hx Hy.
  destruct (q_eqb x 0) eqn:Ex; destruct (q_eqb y 0) eqn:Ey;
  destruct (q_gtb x 0) eqn:Gx; destruct (q_gtb y 0) eqn:Gy; simpl; auto;
  repeat match goal with
  | H : q_eqb _ _ = true |- _ => apply q_eqb_true in H
  | H : q_eqb _ _ = false |- _ => apply q_eqb_false in H
  | H : q_gtb _ _ = true |- _ => apply q_gtb_true in H
  | H : q_gtb _ _ = false |- _ => apply q_gtb_false in H
  end; exfalso;
  first [ rewrite Ex in Gx; now apply Qlt_irrefl in Gx
        | rewrite Ey in Gy; now apply Qlt_irrefl in Gy
        | apply Ex; now apply Qle_antisym
        | apply Ey; now apply Qle_antisym ].
Qed.

Lemma counts_sum (t : table) :
  (forall r, In r t -> 0 <= balance r /\ 0 <= allocated_qty r) ->
  (ready_count t + partial_count t + missing_count t = List.length t + double_count t)%nat.
Proof.
  induction t as [| r t IH]; intros Hnn; [reflexivity |].
  unfold ready_count, partial_count, missing_count, double_count in *.
  rewrite !length_filter_cons.
  destruct (Hnn r (or_introl eq_refl)) as [Hb Ha].
  pose proof (row_counts _ _ Hb Ha) as Hr.
  assert (IH' := IH (fun r' H => Hnn r' (or_intror H))).
  simpl List.length. lia.
Qed.

(** What a returned status is made of. *)
Lemma calculate_project_status_ret df p r :
  calculate_project_status df p = Ret (Some r) ->
  project_rows df p <> [] /\
  max_delay_of (project_rows df p) = Ret (ps_max_delay r) /\
  r = mkStatus
        (overall_status (col_sum balance (project_rows df p))
           (missing_count (project_rows df p)) (ps_max_delay r))
        (List.length (project_rows df p))
        (ready_count (project_rows df p)) (partial_count (project_rows df p))
        (missing_count (project_rows df p))
        (col_sum req_qty (project_rows df p))
        (col_sum allocated_qty (project_rows df p))
        (col_sum balance (project_rows df p))
        (fulfillment (col_sum allocated_qty (project_rows df p))
           (col_sum req_qty (project_rows df p)))
        (ps_max_delay r).
Proof.
  unfold calculate_project_status.
  destruct (project_rows df p) as [| r0 rs] eqn:E; [discriminate |].
  destruct (max_delay_of (r0 :: rs)) as [md | e] eqn:M; simpl; [| discriminate].
  intros H. injection H as <-. simpl. repeat split; auto. discriminate.
Qed.

(** ** Project status: sums *)

Lemma col_sum_cons f r t : col_sum f (r :: t) = f r + col_sum f t.
Proof. reflexivity. Qed.

Lemma col_sum_le (f g : row -> Q) (t : table) :
  (forall r, In r t -> f r <= g r) -> col_sum f t <= col_sum g t.
Proof.
  induction t as [| r t IH]; intros H; simpl.
  - apply Qle_refl.
  - unfold col_sum in *; simpl.
    apply Qplus_le_compat; [apply H; now left | apply IH; intros; apply H; now right].
Qed.

Lemma col_sum_nonneg (f : row -> Q) (t : table) :
  (forall r, In r t -> 0 <= f r) -> 0 <= col_sum f t.
Proof.
  intros H. apply (Qle_trans _ (col_sum (fun _ => 0) t)).
  - induction t as [| r t IH]; [apply Qle_refl |].
    unfold col_sum in *; simpl. rewrite <- (Qplus_0_l 0) at 1.
    apply Qplus_le_compat; [apply Qle_refl | apply IH; intros; apply H; now right].
  - apply col_sum_le. exact H.
Qed.

Lemma fulfillment_bounds a q :
  0 <= a -> a <= q -> 0 <= fulfillment a q /\ fulfillment a q <= 100.
Proof.
  intros Ha Haq. unfold fulfillment.
  destruct (q_gtb q 0) eqn:G.
  - apply q_gtb_true in G. split.
    + apply (Qle_trans _ (0 * 100)); [apply Qle_refl |].
      apply Qmult_le_compat_r; [| discriminate].
      apply Qle_shift_div_l; auto. rewrite Qmult_0_l. exact Ha.
    + apply (Qle_trans _ (1 * 100)); [| apply Qle_refl].
      apply Qmult_le_compat_r; [| discriminate].
      apply Qle_shift_div_r; auto. rewrite Qmult_1_l. exact Haq.
  - split; [apply Qle_refl | discriminate].
Qed.

(** ** C1: Ready, Partial and Missing counts *)

Lemma double_count_pos (t : table) x :
  In x t -> balance x == 0 -> allocated_qty x == 0 -> (0 < double_count t)%nat.
Proof.
  intros Hx Hb Ha. unfold double_count.
  destruct (filter (fun r => q_eqb (balance r) 0 && q_eqb (allocated_qty r) 0) t)
    as [| y ys] eqn:E; simpl; [| lia].
  assert (Hin : In x (filter (fun r => q_eqb (balance r) 0
                                      && q_eqb (allocated_qty r) 0) t)).
  { apply filter_In. split; [exact Hx |]. apply andb_true_iff.
    split; apply q_eqb_true; assumption. }
  rewrite E in Hin. destruct Hin.
Qed.

(** C1 (a bug of the code): the Ready, Partial and Missing counts of
    [calculate_project_status] do not partition the rows.  On a project whose
    rows have balance >= 0 and allocated >= 0 they add up to the number of
    rows plus the number of rows with balance 0 and allocated 0, which
    count both as Ready and as Missing; so one such row is enough to make
    the three counts exceed the number of rows. *)
Theorem C1_double_counted df p s :
  calculate_project_status df p = Ret (Some s) ->
  (forall x, In x (project_rows df p) -> 0 <= balance x /\ 0 <= allocated_qty x) ->
  (ps_ready_items s + ps_partial_items s + ps_missing_items s
   = ps_total_items s + double_count (project_rows df p))%nat /\
  (forall x, In x (project_rows df p) -> balance x == 0 -> allocated_qty x == 0 ->
   (ps_total_items s < ps_ready_items s + ps_partial_items s + ps_missing_items s)%nat).
Proof.
  intros Hs Hnn.
  assert (E : (ps_ready_items s + ps_partial_items s + ps_missing_items s
               = ps_total_items s + double_count (project_rows df p))%nat).
  { destruct (calculate_project_status_ret _ _ _ Hs) as (_ & _ & ->). simpl.
    apply counts_sum. exact Hnn. }
  split; [exact E |].
  intros x Hx Hb Ha. rewrite E.
  pose proof (double_count_pos _ x Hx Hb Ha). lia.
Qed.

(** The failing input: project P1 with one row whose required, allocated
    and balance are all 0.  It has one row, counted once as Ready and once
    as Missing. *)
Lemma C1_witness :
  exists s, calculate_project_status zero_row_table "P1" = Ret (Some s) /\
  ps_total_items s = 1%nat /\ ps_ready_items s = 1%nat /\ ps_missing_items s = 1%nat /\
  (ps_total_items s < ps_ready_items s + ps_partial_items s + ps_missing_items s)%nat.
Proof.
  eexists. split; [reflexivity |].
  split; [reflexivity |]. split; [reflexivity |]. split; [reflexivity |].
  apply (proj2 (C1_double_counted zero_row_table "P1" _ eq_refl
                  ltac:(intros x Hx; destruct Hx as [<- | []];
                        split; apply Qle_bool_iff; reflexivity))
           (hd realloc_row zero_row_table));
    [left; reflexivity | reflexivity | reflexivity].
Defined.

(** ** C2: the overall status *)

(** Where [calculate_project_status] returns, its status follows the
    cascade Ready / Critical / Partial. *)
Lemma calculate_project_status_cascade df p r :
  calculate_project_status df p = Ret (Some r) ->
  (ps_status r = SReady <-> ps_total_balance r == 0) /\
  (ps_status r = SCritical <->
     ~ ps_total_balance r == 0 /\
     ((0 < ps_missing_items r)%nat \/ ps_max_delay r = DLate)) /\
  (ps_status r = SPartial <->
     ~ ps_total_balance r == 0 /\ ps_missing_items r = 0%nat /\ ps_max_delay r <> DLate).
Proof.
  intros Hr.
  destruct (calculate_project_status_ret _ _ _ Hr) as (_ & _ & E).
  rewrite E; clear E Hr; simpl.
  set (tb := col_sum balance (project_rows df p)).
  set (m := missing_count (project_rows df p)).
  set (md := ps_max_delay r).
  unfold overall_status.
  destruct (q_eqb tb 0) eqn:Eb.
  - apply q_eqb_true in Eb. repeat split; try discriminate; try tauto.
  - apply q_eqb_false in Eb.
    destruct (Nat.ltb 0 m) eqn:Em;
      [apply Nat.ltb_lt in Em | apply Nat.ltb_ge in Em];
      destruct md; simpl;
      repeat split; try discriminate; try tauto; try lia;
      intros; try (left; lia); try right; try congruence.
    destruct H as [_ [H | H]]; [lia | discriminate].
Qed.

(** C2 (code bug): the project has rows and total balance 0, so the claim
    has it Ready, but computing [delayed_items['delay'].max()] over the
    values 5 and ['late'] raises [TypeError] before any status is set. *)
Theorem C2_mixed_delays_raise :
  project_rows mixed_delay_table "P" <> [] /\
  col_sum balance (project_rows mixed_delay_table "P") == 0 /\
  calculate_project_status mixed_delay_table "P" = Raise TypeError.
Proof.
  split; [discriminate | split; [apply Qeq_bool_iff | ]; reflexivity].
Qed.

(** ** C3: the fulfillment percentage *)

(** C3 (as stated, refuted): a row with allocated <= required, and so
    balance >= 0, but a negative allocation gives a fulfillment of -50. *)
Lemma C3_counterexample :
  ~ (forall df p r, calculate_project_status df p = Ret (Some r) ->
       (forall x, In x (project_rows df p) -> allocated_qty x <= req_qty x) ->
       0 <= ps_fulfillment_pct r /\ ps_fulfillment_pct r <= 100).
Proof.
  intros H.
  specialize (H [sample_row "P1" "ITM1" "inventory" "free_stock" "-" 10 (-5) 15 None (DNum 0)]
                "P1").
  specialize (H _ eq_refl).
  destruct H as [H _].
  - intros x [<- | []]. apply Qle_bool_iff. reflexivity.
  - apply Qle_bool_iff in H. vm_compute in H. discriminate.
Qed.

(** C3 (amended): where [calculate_project_status] returns, the fulfillment
    is total allocated / total required * 100 when total required > 0, and
    0 when total required = 0; when every row has
    0 <= allocated <= required it lies in [0, 100]. *)
Theorem C3_fulfillment_range df p r :
  calculate_project_status df p = Ret (Some r) ->
  (0 < ps_total_req r ->
     ps_fulfillment_pct r = ps_total_allocated r / ps_total_req r * 100) /\
  (ps_total_req r == 0 -> ps_fulfillment_pct r = 0) /\
  ((forall x, In x (project_rows df p) ->
      0 <= allocated_qty x /\ allocated_qty x <= req_qty x) ->
   0 <= ps_fulfillment_pct r /\ ps_fulfillment_pct r <= 100).
Proof.
  intros Hr.
  destruct (calculate_project_status_ret _ _ _ Hr) as (_ & _ & ->). simpl.
  unfold fulfillment. split; [| split].
  - intros Hq. apply q_gtb_true in Hq. now rewrite Hq.
  - intros Hq. destruct (q_gtb _ 0) eqn:G; auto.
    apply q_gtb_true in G. rewrite Hq in G. now apply Qlt_irrefl in G.
  - intros Hb. apply fulfillment_bounds.
    + apply col_sum_nonneg. intros x Hx. apply Hb. exact Hx.
    + apply col_sum_le. intros x Hx. apply Hb. exact Hx.
Qed.

Lemma C3_witness :
  exists r, calculate_project_status p1_table "P1" = Ret (Some r) /\
  (0 < ps_total_req r ->
     ps_fulfillment_pct r = ps_total_allocated r / ps_total_req r * 100) /\
  (ps_total_req r == 0 -> ps_fulfillment_pct r = 0) /\
  ((forall x, In x (project_rows p1_table "P1") ->
      0 <= allocated_qty x /\ allocated_qty x <= req_qty x) ->
   0 <= ps_fulfillment_pct r /\ ps_fulfillment_pct r <= 100).
Proof.
  eexists. split; [reflexivity |].
  apply (C3_fulfillment_range p1_table "P1"). reflexivity.
Defined.

(** ** Material inquiry: the blocking-issue rules *)

Lemma filter_nonempty {A} (f : A -> bool) l :
  filter f l <> [] <-> exists x, In x l /\ f x = true.
Proof.
  split.
  - intros H. destruct (filter f l) as [| x xs] eqn:E; [congruence |].
    exists x. apply filter_In. rewrite E. now left.
  - intros (x & Hx & Hf) E. assert (In x (filter f l)) by (apply filter_In; auto).
    rewrite E in H. destruct H.
Qed.

Lemma in_issue_if rows m x : In x (issue_if rows m) <-> rows <> [] /\ x = m.
Proof.
  destruct rows; simpl; split; intuition congruence.
Qed.

Ltac blocking_cases t :=
  unfold blocking_issues, issue_if;
  destruct (rows_of_type "QC" t); destruct (rows_of_type "GR_in_process" t);
  destruct (filter (fun r => delay_is_late (delay r)) (rows_of_type "PO" t));
  destruct (rows_of_type "PR" t);
  simpl; split; intros; repeat match goal with H : _ /\ _ |- _ => destruct H end;
  subst; intuition (try congruence).

Lemma in_blocking_qc t q :
  In (StuckInQC q) (blocking_issues t) <->
  rows_of_type "QC" t <> [] /\ q = col_sum allocated_qty (rows_of_type "QC" t).
Proof. blocking_cases t. Qed.

Lemma in_blocking_gr t q :
  In (InGRProcess q) (blocking_issues t) <->
  rows_of_type "GR_in_process" t <> [] /\
  q = col_sum allocated_qty (rows_of_type "GR_in_process" t).
Proof. blocking_cases t. Qed.

Lemma in_blocking_po t q :
  In (OnDelayedPOs q) (blocking_issues t) <->
  filter (fun r => delay_is_late (delay r)) (rows_of_type "PO" t) <> [] /\
  q = col_sum allocated_qty (filter (fun r => delay_is_late (delay r)) (rows_of_type "PO" t)).
Proof. blocking_cases t. Qed.

Lemma in_blocking_pr t q :
  In (NeedPRCreation q) (blocking_issues t) <->
  rows_of_type "PR" t <> [] /\ q = col_sum balance (rows_of_type "PR" t).
Proof. blocking_cases t. Qed.

Lemma rows_of_type_nonempty ty t :
  rows_of_type ty t <> [] <-> exists r, In r t /\ supply_type r = ty.
Proof.
  unfold rows_of_type, table. rewrite filter_nonempty.
  split; intros (r & Hr & E); exists r; split; auto; apply String.eqb_eq; auto.
Qed.

Lemma late_po_nonempty t :
  filter (fun r => delay_is_late (delay r)) (rows_of_type "PO" t) <> [] <->
  exists r, In r t /\ supply_type r = "PO" /\ delay r = DLate.
Proof.
  unfold table. rewrite filter_nonempty. unfold rows_of_type.
  split.
  - intros (r & Hr & E). apply filter_In in Hr as [Hr Ht].
    apply String.eqb_eq in Ht. exists r. repeat split; auto.
    destruct (delay r); [discriminate | reflexivity].
  - intros (r & Hr & Ht & Hd). exists r. split.
    + apply filter_In. split; auto. now apply String.eqb_eq.
    + now rewrite Hd.
Qed.

(** C5 (as stated, refuted): the stuck-in-QC message does not fire exactly
    when the QC quantity is > 0: a QC row allocating 0 gives the message
    "0 units stuck in QC". *)
Lemma C5_counterexample :
  ~ (forall df code inq, material_inquiry df code = Some inq ->
       ((exists q, In (StuckInQC q) (mi_blocking_issues inq)) <->
        0 < col_sum allocated_qty (rows_of_type "QC" (mi_item_data inq)))).
Proof.
  intros H.
  specialize (H [sample_row "P1" "ITM1" "QC" "PO-7" "PO-7/1" 3 0 3 (Some "S1") (DNum 0)]
                "ITM1" _ eq_refl).
  destruct H as [H _]. specialize (H (ex_intro _ 0 (or_introl eq_refl))).
  vm_compute in H. discriminate.
Qed.

(** C5 (amended): for an item with rows, each of the four messages is in the
    blocking-issue list exactly when the item has a row of its kind: a QC
    row, a GR_in_process row, a PO row with delay ['late'], a PR row,
    whatever the quantities (a quantity of 0 still gives the message); the
    message carries the allocated sum of those rows (the balance sum for
    PR).  The rules are independent, so all applicable ones fire. *)
Theorem C5_blocking_rules df code inq :
  material_inquiry df code = Some inq ->
  let rows := filter (fun r => String.eqb (item r) code) df in
  ((exists q, In (StuckInQC q) (mi_blocking_issues inq)) <->
     exists r, In r rows /\ supply_type r = "QC") /\
  ((exists q, In (InGRProcess q) (mi_blocking_issues inq)) <->
     exists r, In r rows /\ supply_type r = "GR_in_process") /\
  ((exists q, In (OnDelayedPOs q) (mi_blocking_issues inq)) <->
     exists r, In r rows /\ supply_type r = "PO" /\ delay r = DLate) /\
  ((exists q, In (NeedPRCreation q) (mi_blocking_issues inq)) <->
     exists r, In r rows /\ supply_type r = "PR") /\
  (forall q, In (StuckInQC q) (mi_blocking_issues inq) ->
     q = col_sum allocated_qty (rows_of_type "QC" rows)) /\
  (forall q, In (InGRProcess q) (mi_blocking_issues inq) ->
     q = col_sum allocated_qty (rows_of_type "GR_in_process" rows)) /\
  (forall q, In (OnDelayedPOs q) (mi_blocking_issues inq) ->
     q = col_sum allocated_qty
           (filter (fun r => delay_is_late (delay r)) (rows_of_type "PO" rows))) /\
  (forall q, In (NeedPRCreation q) (mi_blocking_issues inq) ->
     q = col_sum balance (rows_of_type "PR" rows)).
Proof.
  unfold material_inquiry. intros H. cbv zeta in *.
  set (rows := filter (fun r => String.eqb (item r) code) df) in *.
  destruct rows as [| r0 rs] eqn:E; [discriminate |].
  injection H as <-. simpl mi_blocking_issues. rewrite <- E.
  repeat split.
  - intros [q Hq]. apply in_blocking_qc in Hq as [Hq _]. now apply rows_of_type_nonempty.
  - intros Hr. apply rows_of_type_nonempty in Hr.
    eexists. apply in_blocking_qc. split; [exact Hr | reflexivity].
  - intros [q Hq]. apply in_blocking_gr in Hq as [Hq _]. now apply rows_of_type_nonempty.
  - intros Hr. apply rows_of_type_nonempty in Hr.
    eexists. apply in_blocking_gr. split; [exact Hr | reflexivity].
  - intros [q Hq]. apply in_blocking_po in Hq as [Hq _]. now apply late_po_nonempty.
  - intros Hr. apply late_po_nonempty in Hr.
    eexists. apply in_blocking_po. split; [exact Hr | reflexivity].
  - intros [q Hq]. apply in_blocking_pr in Hq as [Hq _]. now apply rows_of_type_nonempty.
  - intros Hr. apply rows_of_type_nonempty in Hr.
    eexists. apply in_blocking_pr. split; [exact Hr | reflexivity].
  - intros q Hq. now apply in_blocking_qc in Hq as [_ ->].
  - intros q Hq. now apply in_blocking_gr in Hq as [_ ->].
  - intros q Hq. now apply in_blocking_po in Hq as [_ ->].
  - intros q Hq. now apply in_blocking_pr in Hq as [_ ->].
Qed.

Lemma C5_witness :
  exists inq, material_inquiry itm1_table "ITM1" = Some inq /\
  (exists q, In (StuckInQC q) (mi_blocking_issues inq)) /\
  (exists q, In (NeedPRCreation q) (mi_blocking_issues inq)).
Proof.
  eexists. split; [reflexivity |].
  destruct (C5_blocking_rules itm1_table "ITM1" _ eq_refl)
    as (HQ & _ & _ & HP & _).
  split; [apply HQ | apply HP].
  - exists (hd (sample_row "" "" "" "" "" 0 0 0 None (DNum 0)) itm1_table).
    split; [left; reflexivity | reflexivity].
  - exists (nth 1 itm1_table (sample_row "" "" "" "" "" 0 0 0 None (DNum 0))).
    split; [right; left; reflexivity | reflexivity].
Defined.

(** The list itself on the spec's example. *)
Example itm1_blocking_issues :
  option_map mi_blocking_issues (material_inquiry itm1_table "ITM1")
  = Some [StuckInQC 3; NeedPRCreation 2].
Proof. vm_compute. reflexivity. Qed.

(** ** Push to production: buckets and verdict *)

Lemma in_list_In s l : in_list s l = true <-> In s l.
Proof.
  unfold in_list. rewrite existsb_exists. split.
  - intros (x & Hx & E). apply String.eqb_eq in E. now subst.
  - intros H. exists s. split; auto. apply String.eqb_refl.
Qed.

Lemma is_realloc_true selected r :
  is_realloc selected r = true <->
  supply_type r = "inventory" /\ source r <> "free_stock" /\ ~ In (source r) selected.
Proof.
  unfold is_realloc. rewrite !andb_true_iff, !negb_true_iff, String.eqb_eq.
  rewrite String.eqb_neq. split.
  - intros [[H1 H2] H3]. repeat split; auto.
    intros H. apply in_list_In in H. congruence.
  - intros (H1 & H2 & H3). repeat split; auto.
    destruct (in_list (source r) selected) eqn:E; auto.
    apply in_list_In in E. contradiction.
Qed.

(** C6: a selected row is in the needs-reallocation bucket exactly when its
    supply type is "inventory", its source is not "free_stock" and its
    source is not one of the selected values; with "ProjA" selected, the row
    reserved for "ProjB" is in it and the free-stock row is not. *)
Theorem C6_realloc_bucket :
  (forall ft selected df r,
     In r (allocate_items (make_buckets selected (filter_rows ft selected df))) <->
     In r (filter_rows ft selected df) /\ supply_type r = "inventory" /\
     source r <> "free_stock" /\ ~ In (source r) selected) /\
  allocate_items (make_buckets ["ProjA"]
                    (filter_rows BySecOrder ["ProjA"] [realloc_row; free_stock_row]))
  = [realloc_row].
Proof.
  split; [| reflexivity].
  intros ft selected df r. simpl. rewrite filter_In, is_realloc_true. tauto.
Qed.

(** With [fulfillment] assigned, the short-circuit cascade is [verdict_of]. *)
Lemma verdict_py_some n f : verdict_py n (Some f) = Ret (verdict_of n f).
Proof.
  unfold verdict_py, verdict_of. cbn [read_local pbind].
  destruct (Nat.eqb n 0), (Qle_bool 100 f), (Nat.leb n 3), (Qle_bool 90 f);
    reflexivity.
Qed.

(** Unassigned, it is read (and raises) exactly when there are at most 3
    blockers; with more, both tests fail on their left operand. *)
Lemma verdict_py_none n :
  verdict_py n None = if Nat.leb n 3 then Raise UnboundLocalError else Ret NotReady.
Proof.
  unfold verdict_py. destruct (Nat.eqb_spec n 0) as [-> | Hn]; [reflexivity |].
  destruct (Nat.leb n 3); reflexivity.
Qed.

(** The verdict function. *)
Lemma verdict_of_spec n f :
  (verdict_of n f = AllClear <-> n = 0%nat /\ 100 <= f) /\
  (verdict_of n f = AlmostReady <->
     ~ (n = 0%nat /\ 100 <= f) /\ (n <= 3)%nat /\ 90 <= f) /\
  (verdict_of n f = NotReady <->
     ~ (n = 0%nat /\ 100 <= f) /\ ~ ((n <= 3)%nat /\ 90 <= f)).
Proof.
  unfold verdict_of.
  destruct (Nat.eqb n 0 && Qle_bool 100 f) eqn:E1;
  [| destruct (Nat.leb n 3 && Qle_bool 90 f) eqn:E2];
  repeat match goal with
  | H : (_ && _) = true |- _ => apply andb_true_iff in H; destruct H
  | H : (_ && _) = false |- _ => apply andb_false_iff in H
  | H : Nat.eqb _ _ = true |- _ => apply Nat.eqb_eq in H
  | H : Nat.leb _ _ = true |- _ => apply Nat.leb_le in H
  | H : Qle_bool _ _ = true |- _ => apply Qle_bool_iff in H
  end;
  repeat split; try discriminate; try tauto.
  all: try (intros [Ha Hb]; destruct E1 as [E | E];
            [apply Nat.eqb_neq in E; contradiction
            | apply Qle_bool_iff in Hb; congruence]).
  all: try (intros [Ha Hb]; destruct E2 as [E | E];
            [apply Nat.leb_gt in E; lia
            | apply Qle_bool_iff in Hb; congruence]).
  intros (_ & Ha & Hb). destruct E2 as [E | E];
    [apply Nat.leb_gt in E; lia | apply Qle_bool_iff in Hb; congruence].
Qed.

(** C7 (as stated, refuted): not every selection gets a verdict: with
    nothing selected the view stops at its prompt, and a selection whose
    required total is 0 raises before the verdict. *)
Lemma C7_counterexample :
  (forall b v, show_push_to_production BySecOrder [] p1_table <> Ret (Report b v)) /\
  (forall b v, show_push_to_production BySecOrder ["P0"] zero_req_table
               <> Ret (Report b v)).
Proof. split; intros b v; vm_compute; discriminate. Qed.

(** C7 (amended): an empty selection ends at the prompt, with no verdict;
    for a non-empty selection with required total > 0, the verdict is
    computed from the QC, GR and Missing bucket sizes and the fulfillment
    alone: "all clear" when they sum to 0 and fulfillment >= 100, "almost
    ready" otherwise when they sum to at most 3 and fulfillment >= 90, and
    "not ready" otherwise. *)
Theorem C7_verdict ft selected df :
  (filter_rows ft selected df = [] ->
   show_push_to_production ft selected df = Ret SelectPrompt) /\
  (filter_rows ft selected df <> [] ->
   0 < col_sum req_qty (filter_rows ft selected df) ->
   let filtered := filter_rows ft selected df in
   let b := make_buckets selected filtered in
   let n := (List.length (qc_items b) + List.length (gr_items b)
             + List.length (missing_items b))%nat in
   let f := col_sum allocated_qty filtered / col_sum req_qty filtered * 100 in
   exists v, show_push_to_production ft selected df = Ret (Report b v) /\
   (v = AllClear <-> n = 0%nat /\ 100 <= f) /\
   (v = AlmostReady <-> ~ (n = 0%nat /\ 100 <= f) /\ (n <= 3)%nat /\ 90 <= f) /\
   (v = NotReady <-> ~ (n = 0%nat /\ 100 <= f) /\ ~ ((n <= 3)%nat /\ 90 <= f))).
Proof.
  split.
  - intros E. unfold show_push_to_production. rewrite E. reflexivity.
  - intros Hne Hpos. cbv zeta.
    unfold show_push_to_production. cbv zeta.
    destruct selected as [| s ss]; [contradiction |].
    remember (filter_rows ft (s :: ss) df) as F eqn:EF.
    destruct F as [| r0 rs]; [contradiction |].
    unfold fulfillment_var. apply q_gtb_true in Hpos. rewrite Hpos. simpl.
    rewrite verdict_py_some. simpl.
    eexists. split; [reflexivity |]. apply verdict_of_spec.
Qed.

Lemma C7_witness :
  exists v, show_push_to_production BySecOrder ["P1"] p1_table
            = Ret (Report (make_buckets ["P1"] (filter_rows BySecOrder ["P1"] p1_table)) v) /\
  (v = AllClear <-> (0 + 0 + 1 = 0)%nat /\ 100 <= 10 / 15 * 100).
Proof.
  destruct (C7_verdict BySecOrder ["P1"] p1_table) as [_ H].
  destruct H as (v & E & H1 & _).
  - discriminate.
  - vm_compute. reflexivity.
  - exists v. split; [exact E | exact H1].
Defined.

(** ** Push to production: bucket overlaps *)

(** C8 (as stated, refuted): the buckets are filtered independently and
    can share rows: an inventory row at locater 1-1-1-1 reserved for
    "ProjB" is both WIP-available and needs-reallocation, and a QC row with
    allocated 0 and balance 5 is both QC-held and missing. *)
Lemma C8_counterexample :
  let b := make_buckets ["ProjA"]
             (filter_rows BySecOrder ["ProjA"] [wip_row; qc_unallocated_row]) in
  In wip_row (wip_items b) /\ In wip_row (allocate_items b) /\
  In qc_unallocated_row (qc_items b) /\ In qc_unallocated_row (missing_items b).
Proof. vm_compute. intuition. Qed.

(** C8 (amended): the QC-held, GR-pending and needs-reallocation buckets
    are pairwise disjoint (they require different supply types); the
    WIP-available and missing buckets can share rows with the others. *)
Theorem C8_supply_buckets_disjoint selected t r :
  let b := make_buckets selected t in
  ~ (In r (qc_items b) /\ In r (gr_items b)) /\
  ~ (In r (qc_items b) /\ In r (allocate_items b)) /\
  ~ (In r (gr_items b) /\ In r (allocate_items b)).
Proof.
  simpl. rewrite !filter_In, is_realloc_true.
  unfold is_qc, is_gr. rewrite !String.eqb_eq.
  repeat split; intros [[_ H1] [_ H2]];
    first [ rewrite H1 in H2; discriminate
          | destruct H2 as [H3 _]; rewrite H1 in H3; discriminate ].
Qed.

(** ** C10: the unassigned [fulfillment] *)

(** C10 (as stated, refuted): a non-empty selection whose required total
    is 0 does not always crash.  With four QC rows of required quantity 0
    there are four blockers: both tests of the verdict fail on their left
    operand, [fulfillment] is never read, and the verdict is not ready. *)
Lemma C10_counterexample :
  ~ (forall ft selected df,
       filter_rows ft selected df <> [] ->
       col_sum req_qty (filter_rows ft selected df) == 0 ->
       show_push_to_production ft selected df = Raise UnboundLocalError).
Proof.
  intros H.
  specialize (H BySecOrder ["P0"] qc_zero_table ltac:(discriminate)
                ltac:(apply Qeq_bool_iff; reflexivity)).
  vm_compute in H. discriminate.
Qed.

(** C10 (amended): for a non-empty selection whose required total is 0 (or
    less), [fulfillment] is never assigned.  The view reads it, and raises
    [UnboundLocalError], exactly when the QC, GR and Missing buckets hold at
    most 3 rows together; with more, the short-circuit [and] skips the read
    and the verdict is not ready. *)
Theorem C10_zero_required_verdict ft selected df :
  filter_rows ft selected df <> [] ->
  col_sum req_qty (filter_rows ft selected df) <= 0 ->
  let b := make_buckets selected (filter_rows ft selected df) in
  ((total_blocking b <= 3)%nat ->
   show_push_to_production ft selected df = Raise UnboundLocalError) /\
  ((3 < total_blocking b)%nat ->
   show_push_to_production ft selected df = Ret (Report b NotReady)).
Proof.
  intros Hne Hz. cbv zeta. unfold show_push_to_production. cbv zeta.
  destruct selected as [| s ss]; [contradiction |].
  remember (filter_rows ft (s :: ss) df) as F eqn:EF.
  destruct F as [| r0 rs]; [contradiction |].
  unfold fulfillment_var.
  destruct (q_gtb (col_sum req_qty (r0 :: rs)) 0) eqn:G.
  - exfalso. apply q_gtb_true in G. apply (Qlt_not_le _ _ G Hz).
  - cbn [read_local]. rewrite verdict_py_none.
    split; intros Hn.
    + apply Nat.leb_le in Hn. rewrite Hn. reflexivity.
    + apply Nat.leb_gt in Hn. rewrite Hn. reflexivity.
Qed.

Lemma C10_witness :
  show_push_to_production BySecOrder ["P0"] zero_req_table = Raise UnboundLocalError /\
  show_push_to_production BySecOrder ["P0"] qc_zero_table
  = Ret (Report (make_buckets ["P0"] qc_zero_table) NotReady).
Proof.
  split.
  - apply (proj1 (C10_zero_required_verdict BySecOrder ["P0"] zero_req_table
                    ltac:(discriminate) ltac:(apply Qle_bool_iff; reflexivity))).
    vm_compute. lia.
  - apply (proj2 (C10_zero_required_verdict BySecOrder ["P0"] qc_zero_table
                    ltac:(discriminate) ltac:(apply Qle_bool_iff; reflexivity))).
    vm_compute. lia.
Defined.

(** ** The views leave the loaded table untouched *)


Lemma keeps_sret {A} n (a : A) : keeps_below n (sret a).
Proof. intros h Hn. split; auto. Qed.

Lemma keeps_lift {A} n (p : pyres A) : keeps_below n (lift p).
Proof. intros h Hn. split; auto. Qed.

Lemma keeps_deref n l : keeps_below n (deref l).
Proof. intros h Hn. unfold deref. destruct (nth_error h l); split; auto. Qed.

Lemma keeps_alloc n o : keeps_below n (alloc o).
Proof.
  intros h Hn. simpl. rewrite length_app. split; [lia |].
  intros i Hi. apply nth_error_app1. lia.
Qed.

Lemma length_update_nth {A} i (f : A -> A) l :
  List.length (update_nth i f l) = List.length l.
Proof.
  revert i; induction l as [| x l IH]; intros [| i]; simpl; auto.
Qed.

Lemma nth_error_update_nth_ne {A} i j (f : A -> A) l :
  i <> j -> nth_error (update_nth j f l) i = nth_error l i.
Proof.
  revert i j; induction l as [| x l IH]; intros [| i] [| j] Hij; simpl; auto;
    try contradiction; apply IH; lia.
Qed.

(** A mutation of a cell at or above [n]. *)
Lemma keeps_mutate n l f : (n <= l)%nat -> keeps_below n (mutate l f).
Proof.
  intros Hl h Hn. simpl. rewrite length_update_nth. split; auto.
  intros i Hi. apply nth_error_update_nth_ne. lia.
Qed.

Lemma keeps_bind {A B} n (m : st A) (k : A -> st B) :
  keeps_below n m -> (forall a, keeps_below n (k a)) -> keeps_below n (sbind m k).
Proof.
  intros Hm Hk h Hn. unfold sbind.
  destruct (Hm h Hn) as [Hn1 Hi1].
  destruct (m h) as [[a | e] h1]; simpl in *.
  - destruct (Hk a h1 Hn1) as [Hn2 Hi2]. split; auto.
    intros i Hi. rewrite Hi2, Hi1; auto.
  - split; auto.
Qed.

(** What [alloc] returns is a fresh cell, at or above [n]. *)
Lemma keeps_alloc_bind {B} n o (k : loc -> st B) :
  (forall l, (n <= l)%nat -> keeps_below n (k l)) -> keeps_below n (sbind (alloc o) k).
Proof.
  intros Hk h Hn. unfold sbind. simpl.
  destruct (Hk (List.length h) Hn (List.app h [o])) as [Hn2 Hi2].
  { rewrite length_app. lia. }
  split; auto. intros i Hi. rewrite Hi2 by exact Hi. apply nth_error_app1. lia.
Qed.

Lemma keeps_smap {A B} n (f : A -> st B) l :
  (forall a, keeps_below n (f a)) -> keeps_below n (smap f l).
Proof.
  intros Hf. induction l as [| a l IH]; simpl.
  - apply keeps_sret.
  - apply keeps_bind; auto. intros b. apply keeps_bind; auto. intros. apply keeps_sret.
Qed.

Lemma keeps_when_rows n rows m : keeps_below n m -> keeps_below n (when_rows rows m).
Proof. intros H. destruct rows; [apply keeps_sret | exact H]. Qed.

Ltac keeps :=
  repeat match goal with
  | |- keeps_below _ (sbind (alloc _) _) => apply keeps_alloc_bind; intros ? ?
  | |- keeps_below _ (sbind _ _) => apply keeps_bind; [| intros ?]
  | |- keeps_below _ (sret _) => apply keeps_sret
  | |- keeps_below _ (lift _) => apply keeps_lift
  | |- keeps_below _ (deref _) => apply keeps_deref
  | |- keeps_below _ (alloc _) => apply keeps_alloc
  | |- keeps_below _ (set_columns _ _) => apply keeps_mutate; lia
  | |- keeps_below _ (add_column _ _) => apply keeps_mutate; lia
  | |- keeps_below _ (when_rows _ _) => apply keeps_when_rows
  | |- keeps_below _ (display_frame _ _ _) => unfold display_frame
  | |- keeps_below _ (smap _ _) => apply keeps_smap; intros ?
  | |- keeps_below _ (calculate_project_status_h _ _) => unfold calculate_project_status_h
  | |- keeps_below _ (match ?x with _ => _ end) => destruct x
  end.

Lemma cps_keeps n df p : keeps_below n (calculate_project_status_h df p).
Proof. keeps. Qed.

Lemma inquiry_keeps n df c : keeps_below n (material_inquiry_h df c).
Proof. unfold material_inquiry_h. keeps. Qed.

Lemma supplier_keeps n df : keeps_below n (supplier_performance_h df).
Proof. unfold supplier_performance_h. keeps. Qed.

Lemma readiness_keeps n df : keeps_below n (production_readiness_h df).
Proof. unfold production_readiness_h. keeps. Qed.

Lemma push_keeps n ft selected df : keeps_below n (show_push_to_production_h ft selected df).
Proof. unfold show_push_to_production_h. keeps. Qed.

Lemma keeps_frame {A} (m : st A) h l :
  (l < List.length h)%nat -> keeps_below (List.length h) m ->
  nth_error (snd (m h)) l = nth_error h l.
Proof. intros Hl Hm. apply (Hm h (le_n _)). exact Hl. Qed.

(** C9: on any heap holding the loaded table at [df], running any of the
    views (project status, material inquiry, supplier performance,
    production readiness, push to production with its buckets) leaves the
    object at [df] as it was: every frame they mutate is one they created. *)
Theorem C9_views_keep_table h df :
  (df < List.length h)%nat ->
  (forall p, nth_error (snd (calculate_project_status_h df p h)) df = nth_error h df) /\
  (forall c, nth_error (snd (material_inquiry_h df c h)) df = nth_error h df) /\
  nth_error (snd (supplier_performance_h df h)) df = nth_error h df /\
  nth_error (snd (production_readiness_h df h)) df = nth_error h df /\
  (forall ft selected,
     nth_error (snd (show_push_to_production_h ft selected df h)) df = nth_error h df).
Proof.
  intros Hdf.
  repeat split; intros; apply keeps_frame; auto;
    first [ apply cps_keeps | apply inquiry_keeps | apply supplier_keeps
          | apply readiness_keeps | apply push_keeps ].
Qed.

Lemma C9_witness :
  (0 < List.length [OTable study_columns p1_table])%nat /\
  nth_error (snd (show_push_to_production_h BySecOrder ["P1"] O
                    [OTable study_columns p1_table])) O
  = Some (OTable study_columns p1_table).
Proof.
  split; [simpl; lia |].
  destruct (C9_views_keep_table [OTable study_columns p1_table] O) as (_ & _ & _ & _ & H).
  - simpl. lia.
  - apply H.
Defined.

(** ** Supplier performance *)

Lemma insert_desc_perm x l : Permutation (x :: l) (insert_desc x l).
Proof.
  induction l as [| y l IH]; simpl; auto.
  destruct (Qle_bool (ss_avg_delay_days y) (ss_avg_delay_days x)); auto.
  apply (perm_trans (perm_swap y x l)). auto.
Qed.

Lemma sort_desc_perm l : Permutation l (sort_desc l).
Proof.
  induction l as [| x l IH]; simpl; auto.
  apply (perm_trans (perm_skip x IH)). apply insert_desc_perm.
Qed.

Lemma insert_desc_hd x y l :
  avg_desc y x -> HdRel avg_desc y l -> HdRel avg_desc y (insert_desc x l).
Proof.
  intros Hyx Hl. destruct l as [| z l]; simpl.
  - constructor. exact Hyx.
  - destruct (Qle_bool (ss_avg_delay_days z) (ss_avg_delay_days x));
      constructor; auto. inversion Hl; auto.
Qed.

Lemma insert_desc_sorted x l : Sorted avg_desc l -> Sorted avg_desc (insert_desc x l).
Proof.
  induction l as [| y l IH]; intros Hs; simpl.
  - repeat constructor.
  - destruct (Qle_bool (ss_avg_delay_days y) (ss_avg_delay_days x)) eqn:E.
    + constructor; auto. constructor. apply Qle_bool_iff. exact E.
    + inversion Hs as [| ? ? Hs' Hhd]; subst.
      constructor; auto. apply insert_desc_hd; auto.
      unfold avg_desc. apply Qlt_le_weak. apply Qnot_le_lt.
      intros H. apply Qle_bool_iff in H. congruence.
Qed.

Lemma sort_desc_sorted l : Sorted avg_desc (sort_desc l).
Proof.
  induction l as [| x l IH]; simpl; [constructor |]. apply insert_desc_sorted. exact IH.
Qed.

(** [Qmax] returns one of its arguments, and the larger. *)
Lemma Qmax_cases x y : (Qmax x y = x /\ y <= x) \/ (Qmax x y = y /\ x <= y).
Proof.
  unfold Qmax, GenericMinMax.gmax.
  destruct (Qcompare x y) eqn:E.
  - left. split; auto. apply Qeq_alt in E. rewrite E. apply Qle_refl.
  - right. split; auto. apply Qlt_le_weak. apply Qlt_alt. exact E.
  - left. split; auto. apply Qlt_le_weak. apply Qgt_alt. exact E.
Qed.

Lemma qmax_list_spec x xs :
  In (qmax_list x xs) (x :: xs) /\ forall y, In y (x :: xs) -> y <= qmax_list x xs.
Proof.
  unfold qmax_list. revert x. induction xs as [| z xs IH]; intros x; simpl.
  - split; [now left |]. intros y [<- | []]. apply Qle_refl.
  - destruct (IH (Qmax x z)) as [Hin Hle].
    destruct (Qmax_cases x z) as [[E H] | [E H]]; rewrite E in *; split.
    + destruct Hin as [<- | Hin]; auto.
    + intros y [<- | [<- | Hy]].
      * apply Hle. now left.
      * apply (Qle_trans _ x); auto. apply Hle. now left.
      * apply Hle. now right.
    + destruct Hin as [<- | Hin]; auto.
    + intros y [<- | [<- | Hy]].
      * apply (Qle_trans _ z); auto. apply Hle. now left.
      * apply Hle. now left.
      * apply Hle. now right.
Qed.

Lemma in_supplier_rows df s r :
  In (s, r) (supplier_rows df) <-> In r df /\ supplier r = Some s.
Proof.
  induction df as [| x df IH]; simpl; [tauto |].
  destruct (supplier x) as [s' |] eqn:E; simpl; rewrite IH; split.
  - intros [H | H]; [injection H as <- <-; auto | tauto].
  - intros [[<- | H] H']; [left; congruence | auto].
  - tauto.
  - intros [[<- | H] H']; [congruence | auto].
Qed.

Lemma supplier_rows_nil df :
  supplier_rows df = [] <-> forall r, In r df -> supplier r = None.
Proof.
  induction df as [| x df IH]; simpl; [split; tauto |].
  destruct (supplier x) eqn:E; split.
  - discriminate.
  - intros H. specialize (H x (or_introl eq_refl)). congruence.
  - intros H r [<- | Hr]; auto. apply IH; auto.
  - intros H. apply IH. intros r Hr. apply H. now right.
Qed.

Lemma in_group_keys k ks : In k (group_keys ks) <-> In k ks.
Proof.
  induction ks as [| k' ks IH]; simpl; [tauto |].
  rewrite filter_In, IH, negb_true_iff, String.eqb_neq.
  split; [intros [H | [H _]]; auto | intros [H | H]; auto].
  destruct (String.eqb_spec k' k); auto.
Qed.

Lemma group_keys_nodup ks : NoDup (group_keys ks).
Proof.
  induction ks as [| k ks IH]; simpl; constructor.
  - rewrite filter_In, negb_true_iff, String.eqb_neq. tauto.
  - apply NoDup_filter. exact IH.
Qed.

Lemma pmap_ret {A B} (f : A -> pyres B) l ys :
  pmap f l = Ret ys -> Forall2 (fun a b => f a = Ret b) l ys.
Proof.
  revert ys; induction l as [| a l IH]; intros ys; simpl.
  - intros H. injection H as <-. constructor.
  - destruct (f a) as [b | e] eqn:Ef; simpl; [| discriminate].
    destruct (pmap f l) as [bs | e] eqn:El; simpl; [| discriminate].
    intros H. injection H as <-. constructor; auto.
Qed.

Lemma pmap_total {A B} (f : A -> pyres B) l :
  (forall a, In a l -> exists b, f a = Ret b) -> exists ys, pmap f l = Ret ys.
Proof.
  induction l as [| a l IH]; intros H; simpl; [eauto |].
  destruct (H a (or_introl eq_refl)) as [b Hb]. rewrite Hb. simpl.
  destruct IH as [ys Hys]; [intros; apply H; now right |].
  rewrite Hys. simpl. eauto.
Qed.

Lemma group_of_delayed df s :
  group_of (delayed_rows (supplier_rows df)) s = delayed_supplier_rows df s.
Proof.
  unfold group_of, delayed_rows, delayed_supplier_rows.
  induction df as [| r df IH]; simpl; auto.
  destruct (supplier r) as [s' |]; simpl; [| exact IH].
  destruct (delay_eq0 (delay r)); simpl;
    destruct (String.eqb s' s); simpl; try f_equal; exact IH.
Qed.

Lemma delay_numbers_ret ds xs :
  delay_numbers ds = Ret xs -> xs = map (fun d => match d with DNum x => x | DLate => 0 end) ds.
Proof.
  revert xs; induction ds as [| [d |] ds IH]; intros xs; simpl.
  - intros H. injection H as <-. reflexivity.
  - destruct (delay_numbers ds) as [ys | e]; simpl; [| discriminate].
    intros H. injection H as <-. f_equal. apply IH. reflexivity.
  - discriminate.
Qed.

Lemma delay_numbers_total ds :
  (forall d, In d ds -> exists x, d = DNum x) -> exists xs, delay_numbers ds = Ret xs.
Proof.
  induction ds as [| d ds IH]; intros H; simpl; [eauto |].
  destruct (H d (or_introl eq_refl)) as [x ->].
  destruct IH as [xs Hxs]; [intros; apply H; now right |].
  rewrite Hxs. simpl. eauto.
Qed.

Lemma agg_group_ret s grp st :
  agg_group s grp = Ret st -> ss_supplier st = s /\ stat_of_rows st grp.
Proof.
  unfold agg_group.
  destruct (delay_numbers (map delay grp)) as [xs | e] eqn:E; cbn [pbind]; [| discriminate].
  apply delay_numbers_ret in E. rewrite map_map in E.
  change (fun x => match delay x with DNum x0 => x0 | DLate => 0 end) with delay_days in E.
  destruct xs as [| x xs']; [discriminate |].
  intros H. injection H as <-. unfold stat_of_rows.
  cbn [ss_supplier ss_delayed_items ss_avg_delay_days ss_max_delay_days
       ss_total_qty_delayed].
  destruct (qmax_list_spec x xs') as [Hin Hle].
  rewrite E in Hin, Hle.
  assert (Hl : List.length grp = S (List.length xs'))
    by (rewrite <- (length_map delay_days grp), <- E; reflexivity).
  repeat split; auto.
  - rewrite Hl, <- E. reflexivity.
  - intros r Hr. apply Hle. apply in_map. exact Hr.
Qed.

Lemma Forall2_in_right {A B} (R : A -> B -> Prop) l1 l2 b :
  Forall2 R l1 l2 -> In b l2 -> exists a, In a l1 /\ R a b.
Proof.
  intros H. induction H as [| a b' l1 l2 Hab H IH]; simpl; [tauto |].
  intros [<- | Hb]; [eauto |]. destruct (IH Hb) as (a' & Ha' & Hr). eauto.
Qed.

Lemma agg_keys_map g keys ys :
  Forall2 (fun k st => agg_group k (g k) = Ret st) keys ys -> map ss_supplier ys = keys.
Proof.
  intros H. induction H as [| k st ks ys Hk H IH]; simpl; auto.
  apply agg_group_ret in Hk as [-> _]. now rewrite IH.
Qed.

Lemma in_delayed_keys df s :
  In s (map fst (delayed_rows (supplier_rows df))) <->
  exists r, In r df /\ supplier r = Some s /\ delay_eq0 (delay r) = false.
Proof.
  rewrite in_map_iff. unfold delayed_rows. split.
  - intros ([s' r] & Hs & Hin). simpl in Hs. subst s'.
    apply filter_In in Hin as [Hin Hd]. apply in_supplier_rows in Hin as [Hin Hsup].
    simpl in Hd. apply negb_true_iff in Hd. eauto.
  - intros (r & Hin & Hsup & Hd). exists (s, r). split; auto.
    apply filter_In. split.
    + now apply in_supplier_rows.
    + simpl. now rewrite Hd.
Qed.

(** C4 (as stated, refuted): a table with no supplier at all yields [None],
    not a result table; and a supplier whose delayed row has the ['late']
    delay does not appear with its statistics: the [mean] aggregation raises
    [TypeError] on the string. *)
Lemma C4_counterexample :
  supplier_performance zero_req_table = Ret None /\
  (exists r, In r late_po_table /\ supplier r = Some "S1" /\ delay_eq0 (delay r) = false) /\
  supplier_performance late_po_table = Raise TypeError.
Proof.
  split; [reflexivity |]. split; [| reflexivity].
  eexists. split; [left; reflexivity | split; reflexivity].
Qed.

(** C4 (amended): [supplier_performance] returns [None] exactly when no row
    has a supplier.  Otherwise, when every delayed row with a supplier has
    a numeric delay, it returns a table with one row per supplier that has
    at least one row with nonzero delay, and no other: the number of those
    rows, their mean and maximum delay and their allocated total, sorted in
    descending order of mean delay. *)
Theorem C4_supplier_stats df :
  (supplier_performance df = Ret None <-> forall r, In r df -> supplier r = None) /\
  ((exists r, In r df /\ supplier r <> None) ->
   (forall r, In r df -> supplier r <> None -> delay_eq0 (delay r) = false ->
      exists d, delay r = DNum d) ->
   exists stats, supplier_performance df = Ret (Some stats) /\
   (forall s, In s (map ss_supplier stats) <->
      exists r, In r df /\ supplier r = Some s /\ delay_eq0 (delay r) = false) /\
   NoDup (map ss_supplier stats) /\
   (forall st, In st stats -> stat_of_rows st (delayed_supplier_rows df (ss_supplier st))) /\
   Sorted avg_desc stats).
Proof.
  split.
  - rewrite <- supplier_rows_nil. unfold supplier_performance.
    destruct (supplier_rows df) as [| p ps]; [tauto |].
    split; [| discriminate].
    destruct (supplier_stats_of (p :: ps)); discriminate.
  - intros (r0 & Hr0 & Hs0) Hnum.
    set (D := delayed_rows (supplier_rows df)).
    set (keys := group_keys (map fst D)).
    assert (Hagg : forall k, In k keys -> exists st, agg_group k (group_of D k) = Ret st).
    { intros k Hk. unfold keys in Hk. rewrite in_group_keys in Hk.
      apply in_delayed_keys in Hk as (r & Hr & Hsup & Hd).
      unfold D. rewrite group_of_delayed.
      assert (Hg : In r (delayed_supplier_rows df k)).
      { apply filter_In. split; auto. rewrite Hsup, String.eqb_refl, Hd. reflexivity. }
      destruct (delay_numbers_total (map delay (delayed_supplier_rows df k))) as [xs Hxs].
      { intros d Hdin. apply in_map_iff in Hdin as (r' & <- & Hr').
        apply filter_In in Hr' as [Hr' Hc]. apply andb_true_iff in Hc as [Hc1 Hc2].
        apply negb_true_iff in Hc2.
        apply (Hnum r' Hr'); auto. destruct (supplier r'); [discriminate | discriminate]. }
      unfold agg_group. rewrite Hxs. simpl.
      apply delay_numbers_ret in Hxs.
      destruct xs as [| x xs']; [| eauto].
      exfalso. destruct (delayed_supplier_rows df k); [destruct Hg | discriminate]. }
    destruct (pmap_total (fun s => agg_group s (group_of D s)) keys Hagg) as [ys Hys].
    assert (Hf := pmap_ret _ _ _ Hys).
    assert (Hkeys := agg_keys_map _ _ _ Hf).
    exists (sort_desc ys).
    assert (Hperm : Permutation (map ss_supplier ys) (map ss_supplier (sort_desc ys)))
      by (apply Permutation_map, sort_desc_perm).
    split; [| split; [| split; [| split]]].
    + unfold supplier_performance.
      destruct (supplier_rows df) as [| p ps] eqn:E.
      * exfalso. destruct (supplier r0) as [s0 |] eqn:Es; [| contradiction].
        assert (In (s0, r0) (supplier_rows df)) by (now apply in_supplier_rows).
        rewrite E in H. destruct H.
      * assert (Hst : supplier_stats_of (p :: ps) = Ret ys) by exact Hys.
        change (pbind (supplier_stats_of (p :: ps)) (fun stats => Ret (Some (sort_desc stats)))
                = Ret (Some (sort_desc ys))).
        rewrite Hst. reflexivity.
    + intros s. split.
      * intros Hs. apply (Permutation_in _ (Permutation_sym Hperm)) in Hs.
        rewrite Hkeys in Hs. unfold keys in Hs. rewrite in_group_keys in Hs.
        now apply in_delayed_keys.
      * intros Hs. apply (Permutation_in _ Hperm). rewrite Hkeys.
        unfold keys. rewrite in_group_keys. now apply in_delayed_keys.
    + apply (Permutation_NoDup Hperm). rewrite Hkeys. apply group_keys_nodup.
    + intros st Hst. apply (Permutation_in _ (Permutation_sym (sort_desc_perm ys))) in Hst.
      destruct (Forall2_in_right _ _ _ _ Hf Hst) as (k & _ & Hk).
      apply agg_group_ret in Hk as [-> Hstat].
      unfold D in Hstat. rewrite group_of_delayed in Hstat. exact Hstat.
    + apply sort_desc_sorted.
Qed.

Lemma C4_witness :
  exists stats, supplier_performance supplier_table = Ret (Some stats) /\
   (forall s, In s (map ss_supplier stats) <->
      exists r, In r supplier_table /\ supplier r = Some s /\ delay_eq0 (delay r) = false) /\
   Sorted avg_desc stats.
Proof.
  destruct (C4_supplier_stats supplier_table) as [_ H].
  destruct H as (stats & E & Hin & _ & _ & Hs).
  - exists (hd (sample_row "" "" "" "" "" 0 0 0 None (DNum 0)) supplier_table).
    split; [left; reflexivity | discriminate].
  - intros r Hr Hsup Hd. simpl in Hr.
    destruct Hr as [<- | [<- | [<- | [<- | []]]]]; eexists; reflexivity.
  - exists stats. split; [exact E | split; [exact Hin | exact Hs]].
Defined.

Example supplier_table_stats :
  option_map (option_map (map (fun st => (ss_supplier st, ss_delayed_items st))))
    (match supplier_performance supplier_table with Ret x => Some x | Raise _ => None end)
  = Some (Some [("S2", 1%nat); ("S1", 2%nat)]).
Proof. vm_compute. reflexivity. Qed.

(* ================================================================== *)
(** * The other views *)


(** ** Project status: the max delay *)

Lemma delay_max_late d0 ds :
  delay_max d0 ds = Ret DLate <-> d0 = DLate /\ forall d, In d ds -> d = DLate.
Proof.
  revert d0; induction ds as [| d ds IH]; intros d0; simpl.
  - split; [intros H; injection H as ->; tauto | intros [-> _]; reflexivity].
  - destruct d0 as [x |], d as [y |].
    + rewrite IH. split; [intros [H _]; discriminate | intros [H _]; discriminate].
    + split; [discriminate | intros [H _]; discriminate].
    + split; [discriminate | intros [_ H]; specialize (H _ (or_introl eq_refl)); discriminate].
    + rewrite IH. split.
      * intros [_ H]. split; auto. intros d [<- | Hd]; auto.
      * intros [_ H]. split; auto.
Qed.

Lemma delay_max_num d0 ds m :
  delay_max d0 ds = Ret (DNum m) ->
  In (DNum m) (d0 :: ds) /\ forall d, In d (d0 :: ds) -> exists x, d = DNum x /\ x <= m.
Proof.
  revert d0; induction ds as [| d ds IH]; intros d0; simpl.
  - intros H. injection H as ->. split; [auto |].
    intros d [<- | []]. eexists; split; [reflexivity | apply Qle_refl].
  - destruct d0 as [x |], d as [y |]; intros H; try discriminate.
    + destruct (IH _ H) as [Hin Hle].
      destruct (Hle _ (or_introl eq_refl)) as (z & Hz & Hzm). injection Hz as <-.
      split.
      * destruct Hin as [Hm | Hm]; [| auto].
        injection Hm as Hm. destruct (Qmax_cases x y) as [[E _] | [E _]];
          rewrite E in Hm; subst; auto.
      * intros d [<- | [<- | Hd]].
        -- exists x. split; auto. eapply Qle_trans; [apply Q.le_max_l | exact Hzm].
        -- exists y. split; auto. eapply Qle_trans; [apply Q.le_max_r | exact Hzm].
        -- apply Hle. now right.
    + destruct (IH _ H) as [_ Hle].
      destruct (Hle _ (or_introl eq_refl)) as (z & Hz & _). discriminate.
Qed.

Lemma delay_max_mixed d0 ds e :
  delay_max d0 ds = Raise e ->
  exists d1 d2, In d1 (d0 :: ds) /\ In d2 (d0 :: ds) /\ d1 = DLate /\ d2 <> DLate.
Proof.
  revert d0; induction ds as [| d ds IH]; intros d0; simpl; [discriminate |].
  destruct d0 as [x |], d as [y |]; intros H.
  - destruct (IH _ H) as (d1 & d2 & [<- | H1] & H2 & E1 & N2); [discriminate |].
    exists d1, (DNum x). repeat split; auto. discriminate.
  - exists DLate, (DNum x). repeat split; auto. discriminate.
  - exists DLate, (DNum y). repeat split; auto. discriminate.
  - destruct (IH _ H) as (d1 & d2 & H1 & [<- | H2] & E1 & N2); [congruence |].
    exists d1, d2. repeat split; simpl in *; tauto.
Qed.

Lemma delay_max_raise d0 ds e :
  delay_max d0 ds = Raise e -> e = TypeError.
Proof.
  revert d0; induction ds as [| d ds IH]; intros d0; simpl; [discriminate |].
  destruct d0, d; try (intros H; injection H as <-; reflexivity); apply IH.
Qed.

Lemma max_delay_of_late t :
  max_delay_of t = Ret DLate <->
  delayed_items t <> [] /\ forall r, In r (delayed_items t) -> delay r = DLate.
Proof.
  unfold max_delay_of. fold (delayed_items t).
  destruct (delayed_items t) as [| r0 rs] eqn:E.
  - split; [discriminate | intros [H _]; congruence].
  - rewrite delay_max_late. split.
    + intros [H0 H]. split; [discriminate |].
      intros r [<- | Hr]; auto. apply H. apply in_map. exact Hr.
    + intros [_ H]. split; [apply H; now left |].
      intros d Hd. apply in_map_iff in Hd as (r & <- & Hr). apply H. now right.
Qed.

(** The maximum delay of a project's rows (lines 95-97 of [calculate_project_status]): it is Late exactly when some row is delayed and every delayed row is Late; it raises a TypeError exactly when a Late row and a numeric delay are compared; a numeric result is the largest delayed value, or 0 when no row is delayed. *)
Theorem max_delay_of_cases t :
  (max_delay_of t = Ret DLate <->
     delayed_items t <> [] /\ forall r, In r (delayed_items t) -> delay r = DLate) /\
  (max_delay_of t = Raise TypeError <->
     exists r1 r2, In r1 (delayed_items t) /\ In r2 (delayed_items t) /\
       delay r1 = DLate /\ delay r2 <> DLate) /\
  (forall m, max_delay_of t = Ret (DNum m) ->
     (delayed_items t = [] /\ m = 0 \/
      exists r, In r (delayed_items t) /\ delay r = DNum m) /\
     forall r, In r (delayed_items t) -> exists d, delay r = DNum d /\ d <= m).
Proof.
  split; [apply max_delay_of_late |].
  unfold max_delay_of. fold (delayed_items t).
  destruct (delayed_items t) as [| r0 rs] eqn:E.
  - split; [split; [discriminate | intros (r1 & _ & [] & _)] |].
    intros m H. injection H as <-. split; [left; auto | intros r []].
  - assert (Hmap : forall d, In d (delay r0 :: map delay rs) <->
                             exists r, In r (r0 :: rs) /\ delay r = d).
    { intros d. simpl. rewrite in_map_iff. split.
      - intros [<- | (r & <- & Hr)]; eauto.
      - intros (r & [<- | Hr] & <-); eauto. }
    split.
    + split.
      * intros M. destruct (delay_max_mixed _ _ _ M) as (d1 & d2 & H1 & H2 & E1 & N2).
        apply Hmap in H1 as (r1 & Hr1 & <-). apply Hmap in H2 as (r2 & Hr2 & <-).
        eauto 7.
      * intros (r1 & r2 & Hr1 & Hr2 & E1 & N2).
        destruct (delay_max (delay r0) (map delay rs)) as [[x |] | e] eqn:M.
        -- destruct (delay_max_num _ _ _ M) as [_ Hle].
           destruct (Hle (delay r1)) as (z & Hz & _); [apply Hmap; eauto | congruence].
        -- apply delay_max_late in M as [M0 M].
           exfalso. destruct Hr2 as [<- | Hr2]; [congruence |].
           apply N2, M, in_map. exact Hr2.
        -- apply delay_max_raise in M. now subst.
    + intros m M. destruct (delay_max_num _ _ _ M) as [Hin Hle].
      split.
      * right. apply Hmap in Hin as (r & Hr & Hd). eauto.
      * intros r Hr. apply Hle, Hmap. eauto.
Qed.

(** ** Production readiness *)

Lemma project_rows_nil df p : project_rows df p = [] <-> ~ In p (map sec_order df).
Proof.
  unfold project_rows. induction df as [| r df IH]; simpl; [tauto |].
  destruct (String.eqb_spec (sec_order r) p) as [E | N].
  - split; [discriminate | intros H; exfalso; auto].
  - rewrite IH. intuition.
Qed.

Lemma cps_none df p :
  calculate_project_status df p = Ret None <-> ~ In p (map sec_order df).
Proof.
  rewrite <- project_rows_nil. unfold calculate_project_status.
  destruct (project_rows df p) as [| r0 rs]; [tauto |].
  destruct (max_delay_of (r0 :: rs)); simpl; split; discriminate.
Qed.

Lemma cps_raise df p e :
  calculate_project_status df p = Raise e -> e = TypeError /\ In p (map sec_order df).
Proof.
  intros H. split.
  - unfold calculate_project_status in H.
    destruct (project_rows df p) as [| r0 rs]; [discriminate |].
    unfold max_delay_of in H.
    destruct (filter _ (r0 :: rs)) as [| r1 rs1]; [discriminate |].
    destruct (delay_max _ _) eqn:M; simpl in H; [discriminate |].
    injection H as <-. eapply delay_max_raise; eauto.
  - destruct (in_dec string_dec p (map sec_order df)) as [Hin | Hn]; auto.
    apply cps_none in Hn. congruence.
Qed.

Lemma cps_present df p :
  In p (map sec_order df) ->
  (exists s, calculate_project_status df p = Ret (Some s)) \/
  calculate_project_status df p = Raise TypeError.
Proof.
  intros Hin. destruct (calculate_project_status df p) as [[s |] | e] eqn:E.
  - left. eauto.
  - apply cps_none in E. contradiction.
  - right. apply cps_raise in E as [-> _]. reflexivity.
Qed.

Lemma readiness_list_raise df ps :
  (exists e, readiness_list df ps = Raise e) <->
  exists p, In p ps /\ exists e, calculate_project_status df p = Raise e.
Proof.
  induction ps as [| p ps IH]; simpl.
  - split; [intros [e H]; discriminate | intros (p & [] & _)].
  - destruct (calculate_project_status df p) as [info | e] eqn:E; simpl.
    + destruct (readiness_list df ps) as [rest | e'] eqn:R; simpl.
      * split; [intros [e H]; discriminate |].
        intros (q & [<- | Hq] & e & He); [congruence |].
        destruct (proj2 IH (ex_intro _ q (conj Hq (ex_intro _ e He)))) as [e' H].
        discriminate.
      * split; [| eauto].
        intros _. destruct (proj1 IH (ex_intro _ e' eq_refl)) as (q & Hq & He). eauto.
    + split; [eauto | eauto].
Qed.

Lemma readiness_list_ret df ps rows :
  readiness_list df ps = Ret rows ->
  (forall p, In p ps -> In p (map sec_order df)) ->
  Forall2 (fun p r => exists s, calculate_project_status df p = Ret (Some s) /\
                                r = readiness_of p s) ps rows.
Proof.
  revert rows; induction ps as [| p ps IH]; intros rows H Hps; simpl in H.
  - injection H as <-. constructor.
  - destruct (calculate_project_status df p) as [[s |] | e] eqn:E; simpl in H.
    + destruct (readiness_list df ps) as [rest | e] eqn:R; simpl in H; [| discriminate].
      injection H as <-. constructor; eauto.
      apply IH; auto. intros q Hq. apply Hps. now right.
    + exfalso. apply cps_none in E. apply E, Hps. now left.
    + discriminate.
Qed.

Lemma insert_fulfillment_perm x l : Permutation (x :: l) (insert_fulfillment x l).
Proof.
  induction l as [| y l IH]; simpl; auto.
  destruct (Qle_bool (rd_fulfillment y) (rd_fulfillment x)); auto.
  apply (perm_trans (perm_swap y x l)). auto.
Qed.

Lemma sort_fulfillment_perm l : Permutation l (sort_fulfillment l).
Proof.
  induction l as [| x l IH]; simpl; auto.
  apply (perm_trans (perm_skip x IH)). apply insert_fulfillment_perm.
Qed.

Lemma insert_fulfillment_hd x y l :
  fulfillment_desc y x -> HdRel fulfillment_desc y l ->
  HdRel fulfillment_desc y (insert_fulfillment x l).
Proof.
  intros Hyx Hl. destruct l as [| z l]; simpl.
  - constructor. exact Hyx.
  - destruct (Qle_bool (rd_fulfillment z) (rd_fulfillment x));
      constructor; auto. inversion Hl; auto.
Qed.

Lemma insert_fulfillment_sorted x l :
  Sorted fulfillment_desc l -> Sorted fulfillment_desc (insert_fulfillment x l).
Proof.
  induction l as [| y l IH]; intros Hs; simpl.
  - repeat constructor.
  - destruct (Qle_bool (rd_fulfillment y) (rd_fulfillment x)) eqn:E.
    + constructor; auto. constructor. apply Qle_bool_iff. exact E.
    + inversion Hs as [| ? ? Hs' Hhd]; subst.
      constructor; auto. apply insert_fulfillment_hd; auto.
      unfold fulfillment_desc. apply Qlt_le_weak. apply Qnot_le_lt.
      intros H. apply Qle_bool_iff in H. congruence.
Qed.

Lemma sort_fulfillment_sorted l : Sorted fulfillment_desc (sort_fulfillment l).
Proof.
  induction l as [| x l IH]; simpl; [constructor |].
  apply insert_fulfillment_sorted. exact IH.
Qed.

Lemma Forall2_length' {A B} (R : A -> B -> Prop) l1 l2 :
  Forall2 R l1 l2 -> List.length l1 = List.length l2.
Proof. intros H. induction H; simpl; auto. Qed.

Lemma readiness_projects df ps rows :
  Forall2 (fun p r => exists s, calculate_project_status df p = Ret (Some s) /\
                                r = readiness_of p s) ps rows ->
  map rd_project rows = ps.
Proof.
  intros H. induction H as [| p r ps rows (s & _ & ->) _ IH]; simpl; auto.
  now rewrite IH.
Qed.

(** [production_readiness]: the KeyError on the missing Fulfillment column happens exactly when the table is empty, and the view raises exactly when the status of some project raises. *)
Theorem production_readiness_errors df :
  (forall k, production_readiness df = RKeyError k <-> df = [] /\ k = "Fulfillment %") /\
  ((exists e, production_readiness df = RRaise e) <->
   exists p, calculate_project_status df p = Raise TypeError).
Proof.
  assert (Hkeys : forall p, In p (group_keys (map sec_order df)) -> In p (map sec_order df))
    by (intros p; apply in_group_keys).
  unfold production_readiness. split.
  - intros k. destruct (readiness_list df (group_keys (map sec_order df)))
      as [rows | e] eqn:R.
    + destruct rows as [| r rows].
      * split; [| intros [_ ->]; reflexivity].
        intros H. injection H as <-. split; [| reflexivity].
        destruct df as [| r0 df]; [reflexivity | exfalso].
        apply readiness_list_ret in R; [| exact Hkeys].
        apply Forall2_length' in R. simpl in R. discriminate.
      * split; [discriminate |]. intros [-> _]. discriminate.
    + split; [discriminate |]. intros [-> _]. discriminate.
  - destruct (readiness_list df (group_keys (map sec_order df))) as [rows | e] eqn:R.
    + split.
      * intros [e H]. destruct rows; discriminate.
      * intros (p & Hp). exfalso.
        assert (Hin := proj2 (cps_raise _ _ _ Hp)).
        destruct (proj2 (readiness_list_raise df (group_keys (map sec_order df))))
          as [e He].
        -- exists p. split; [now apply in_group_keys | eauto].
        -- congruence.
    + split; [| eauto].
      intros _. destruct (proj1 (readiness_list_raise _ _) (ex_intro _ e R))
        as (p & _ & e' & He).
      exists p. rewrite He. f_equal. apply (cps_raise _ _ _ He).
Qed.

Lemma readiness_frame_spec df rows :
  production_readiness df = RFrame rows ->
  Permutation (map rd_project rows) (group_keys (map sec_order df)) /\
  NoDup (map rd_project rows) /\
  (forall p, In p (map rd_project rows) <-> In p (map sec_order df)) /\
  (forall r, In r rows -> exists s,
     calculate_project_status df (rd_project r) = Ret (Some s) /\
     r = mkReadiness (rd_project r) (ps_status s) (ps_fulfillment_pct s)
           (ps_missing_items s) (ps_max_delay s)) /\
  Sorted fulfillment_desc rows.
Proof.
  unfold production_readiness.
  destruct (readiness_list df (group_keys (map sec_order df))) as [rs | e] eqn:R;
    [| discriminate].
  destruct rs as [| r0 rs]; [discriminate |].
  intros H. injection H as <-.
  apply readiness_list_ret in R; [| intros p; apply in_group_keys].
  assert (Hp : Permutation (map rd_project (sort_fulfillment (r0 :: rs)))
                 (group_keys (map sec_order df))).
  { rewrite <- (readiness_projects _ _ _ R).
    apply Permutation_map, Permutation_sym, sort_fulfillment_perm. }
  split; [exact Hp |]. split; [| split; [| split]].
  - apply (Permutation_NoDup (Permutation_sym Hp)). apply group_keys_nodup.
  - intros p. rewrite <- (in_group_keys p (map sec_order df)). split; intros H.
    + eapply Permutation_in; [exact Hp | exact H].
    + eapply Permutation_in; [apply Permutation_sym; exact Hp | exact H].
  - intros r Hr. change (In r (sort_fulfillment (r0 :: rs))) in Hr.
    apply (Permutation_in _ (Permutation_sym (sort_fulfillment_perm _))) in Hr.
    clear Hp. induction R as [| p r' ps rows' (s & Hs & ->) _ IH]; [destruct Hr |].
    destruct Hr as [<- | Hr]; [| now apply IH].
    exists s. split; [exact Hs | reflexivity].
  - apply (sort_fulfillment_sorted (r0 :: rs)).
Qed.

(** [production_readiness]: a frame it returns has one row per project of the table, without duplicates, each row carrying that project's status, and is sorted by fulfillment, descending. *)
Theorem production_readiness_frame df rows :
  production_readiness df = RFrame rows ->
  Permutation (map rd_project rows) (group_keys (map sec_order df)) /\
  NoDup (map rd_project rows) /\
  (forall p, In p (map rd_project rows) <-> In p (map sec_order df)) /\
  (forall r, In r rows -> exists s,
     calculate_project_status df (rd_project r) = Ret (Some s) /\
     r = mkReadiness (rd_project r) (ps_status s) (ps_fulfillment_pct s)
           (ps_missing_items s) (ps_max_delay s)) /\
  Sorted fulfillment_desc rows.
Proof. apply readiness_frame_spec. Qed.

Lemma fulfillment_100 a q : fulfillment a q == 100 <-> 0 < q /\ a == q.
Proof.
  unfold fulfillment. destruct (q_gtb q 0) eqn:G.
  - apply q_gtb_true in G.
    assert (Hq : ~ q == 0) by (intros E; rewrite E in G; apply (Qlt_irrefl 0); exact G).
    split.
    + intros H. split; [exact G |].
      assert (H1 : a / q == 1).
      { apply (Qmult_inj_r _ _ 100); [discriminate |]. rewrite H. reflexivity. }
      rewrite <- (Qmult_div_r a q Hq), H1. ring.
    + intros [_ H]. rewrite H. field. exact Hq.
  - apply q_gtb_false in G. split.
    + intros H. discriminate H.
    + intros [H _]. exfalso. apply (Qlt_not_le 0 q); auto.
Qed.

Lemma col_sum_balance t :
  (forall r, In r t -> balance r == req_qty r - allocated_qty r) ->
  col_sum balance t == col_sum req_qty t - col_sum allocated_qty t.
Proof.
  induction t as [| r t IH]; intros H; [reflexivity |].
  rewrite !col_sum_cons, (H r (or_introl eq_refl)), IH; [ring |].
  intros x Hx. apply H. now right.
Qed.

Lemma overall_status_ready tb n md : overall_status tb n md = SReady <-> tb == 0.
Proof.
  unfold overall_status. rewrite <- q_eqb_true.
  destruct (q_eqb tb 0); [tauto |].
  destruct (Nat.ltb 0 n || delay_is_late md); split; discriminate.
Qed.

Lemma cps_fulfillment_100 df p s :
  calculate_project_status df p = Ret (Some s) ->
  (forall r, In r df -> balance r == req_qty r - allocated_qty r) ->
  (ps_fulfillment_pct s == 100 <-> ps_status s = SReady /\ 0 < ps_total_req s).
Proof.
  intros Hs Hinv. destruct (calculate_project_status_ret _ _ _ Hs) as (_ & _ & ->).
  cbn [ps_fulfillment_pct ps_status ps_total_req].
  rewrite fulfillment_100, overall_status_ready.
  rewrite col_sum_balance.
  - split; intros [H1 H2]; split; auto.
    + rewrite H2. ring.
    + apply (Qplus_inj_r _ _ (- col_sum allocated_qty (project_rows df p))).
      rewrite Qplus_opp_r. rewrite <- H1. ring.
  - intros r Hr. apply Hinv. unfold project_rows in Hr. apply filter_In in Hr. tauto.
Qed.

(** [show_production_readiness]: on a table whose sums float64 computes exactly ([float_exact]) and whose rows satisfy balance = req - allocated, a project is listed as ready for production exactly when its status is Ready with a positive requirement, whatever the filter, provided the minimum fulfillment does not exceed 100 or only ready projects are shown.  On such a table the totals are whole numbers of magnitude at most 2^53, and for those the float quotient A / R * 100 (R > 0) rounds to exactly 100 only when A = R, so the exact fulfillment test of the model is the program's. *)
Theorem ready_projects_iff df rows show_only_ready min_fulfillment p :
  production_readiness df = RFrame rows ->
  float_exact df = true ->
  (forall r, In r df -> balance r == req_qty r - allocated_qty r) ->
  (show_only_ready = true \/ min_fulfillment <= 100) ->
  (In p (ready_projects (readiness_filter show_only_ready min_fulfillment rows)) <->
   exists s, calculate_project_status df p = Ret (Some s) /\
             ps_status s = SReady /\ 0 < ps_total_req s).
Proof.
  intros Hf _ Hinv Hmin.
  destruct (readiness_frame_spec _ _ Hf) as (_ & _ & Hproj & Hrows & _).
  unfold ready_projects. rewrite in_map_iff. split.
  - intros (r & <- & Hr). apply filter_In in Hr as [Hr H100].
    apply q_eqb_true in H100.
    assert (Hr' : In r rows)
      by (unfold readiness_filter in Hr; destruct show_only_ready;
          apply filter_In in Hr; tauto).
    destruct (Hrows r Hr') as (s & Hs & Er).
    exists s. split; [exact Hs |].
    apply (cps_fulfillment_100 _ _ _ Hs Hinv).
    rewrite Er in H100. exact H100.
  - intros (s & Hs & Hready & Hreq).
    assert (Hin : In p (map sec_order df)).
    { destruct (in_dec string_dec p (map sec_order df)) as [H | H]; auto.
      apply cps_none in H. congruence. }
    apply Hproj in Hin. apply in_map_iff in Hin as (r & Hp & Hr).
    destruct (Hrows r Hr) as (s' & Hs' & Er).
    rewrite Hp, Hs in Hs'. injection Hs' as <-.
    assert (H100 : rd_fulfillment r == 100)
      by (rewrite Er; apply (cps_fulfillment_100 _ _ _ Hs Hinv); auto).
    exists r. split; [exact Hp |]. apply filter_In. split; [| now apply q_eqb_true].
    unfold readiness_filter. destruct show_only_ready.
    + apply filter_In. split; [exact Hr | now apply q_eqb_true].
    + apply filter_In. split; [exact Hr |]. apply Qle_bool_iff.
      destruct Hmin as [H | H]; [discriminate | rewrite H100; exact H].
Qed.

(** ** Dashboard *)

Lemma count_status_total c s : count_total (count_status c s) = S (count_total c).
Proof. destruct c, s; unfold count_total; simpl; lia. Qed.

Lemma count_statuses_ret df ps c c' :
  count_statuses df ps c = Ret c' ->
  (forall p, In p ps -> In p (map sec_order df)) ->
  count_total c' = (count_total c + List.length ps)%nat.
Proof.
  revert c; induction ps as [| p ps IH]; intros c H Hps; simpl in H.
  - injection H as <-. simpl. lia.
  - destruct (calculate_project_status df p) as [[s |] | e] eqn:E; simpl in H.
    + rewrite (IH _ H) by (intros q Hq; apply Hps; now right).
      rewrite count_status_total. simpl. lia.
    + exfalso. apply cps_none in E. apply E, Hps. now left.
    + discriminate.
Qed.

Lemma count_statuses_raise df ps c :
  (exists e, count_statuses df ps c = Raise e) <->
  exists p, In p ps /\ exists e, calculate_project_status df p = Raise e.
Proof.
  revert c; induction ps as [| p ps IH]; intros c; simpl.
  - split; [intros [e H]; discriminate | intros (p & [] & _)].
  - destruct (calculate_project_status df p) as [info | e] eqn:E; simpl.
    + rewrite IH. split.
      * intros (q & Hq & He). eauto.
      * intros (q & [<- | Hq] & e & He); [congruence | eauto].
    + split; eauto.
Qed.

(** [show_dashboard_overview]: it raises exactly when some project status raises; otherwise the Ready, Partial and Critical counts add up to the number of projects. *)
Theorem dashboard_status_counts df :
  ((exists e, show_dashboard_overview df = Raise e) <->
   exists p, calculate_project_status df p = Raise TypeError) /\
  (forall d, show_dashboard_overview df = Ret d ->
   (n_ready (db_status_counts d) + n_partial (db_status_counts d)
    + n_critical (db_status_counts d) = db_total_projects d)%nat).
Proof.
  unfold show_dashboard_overview.
  destruct (count_statuses df (group_keys (map sec_order df)) (mkCounts O O O))
    as [c | e] eqn:C; simpl.
  - split.
    + split; [intros [e H]; discriminate |].
      intros (p & Hp). exfalso.
      destruct (proj2 (count_statuses_raise df (group_keys (map sec_order df))
                         (mkCounts O O O))) as [e He]; [| congruence].
      exists p. split; [apply in_group_keys; apply (cps_raise _ _ _ Hp) | eauto].
    + intros d H. injection H as <-. simpl.
      apply count_statuses_ret in C; [| intros p; apply in_group_keys].
      unfold count_total in C. simpl in C. lia.
  - split; [| intros d H; discriminate].
    split; [| eauto].
    intros _. destruct (proj1 (count_statuses_raise _ _ _) (ex_intro _ e C))
      as (p & _ & e' & He).
    exists p. rewrite He. f_equal. apply (cps_raise _ _ _ He).
Qed.

(** [show_dashboard_overview]: the overall fulfillment is the fulfillment of the column sums and, when every allocation lies between 0 and the requirement, it lies between 0 and 100. *)
Theorem dashboard_fulfillment_bounds df d :
  show_dashboard_overview df = Ret d ->
  (forall r, In r df -> 0 <= allocated_qty r /\ allocated_qty r <= req_qty r) ->
  db_overall_fulfillment d == fulfillment (col_sum allocated_qty df) (col_sum req_qty df) /\
  0 <= db_overall_fulfillment d /\ db_overall_fulfillment d <= 100.
Proof.
  intros H Hr. unfold show_dashboard_overview in H.
  destruct (count_statuses _ _ _) as [c | e]; simpl in H; [| discriminate].
  injection H as <-. simpl. split; [reflexivity |].
  apply fulfillment_bounds.
  - apply col_sum_nonneg. intros r Hin. apply Hr, Hin.
  - apply col_sum_le. intros r Hin. apply Hr, Hin.
Qed.

Lemma health_ret df p v :
  show_project_health df p = Ret (Some v) ->
  calculate_project_status df p = Ret (Some (hv_status v)) /\
  hv_item_status v = map get_item_status (project_rows df p) /\
  hv_blocking v = health_blocking (hv_status v) (project_rows df p).
Proof.
  unfold show_project_health. destruct (String.eqb p ""); [discriminate |].
  destruct (calculate_project_status df p) as [[s |] | e]; simpl; try discriminate.
  intros H. injection H as <-. simpl. auto.
Qed.

Lemma length_filter_map {A B} (f : B -> bool) (g : A -> B) l :
  List.length (filter f (map g l)) = List.length (filter (fun x => f (g x)) l).
Proof. induction l as [| x l IH]; simpl; [reflexivity |]. destruct (f (g x)); simpl; auto. Qed.

Lemma count_pointwise {A} (f g h : A -> bool) l :
  (forall x, In x l -> (b2n (f x) + b2n (g x) = b2n (h x))%nat) ->
  (List.length (filter f l) + List.length (filter g l) = List.length (filter h l))%nat.
Proof.
  induction l as [| x l IH]; intros H; [reflexivity |].
  rewrite !length_filter_cons.
  specialize (H x (or_introl eq_refl)) as Hx.
  rewrite <- Hx. rewrite <- IH by (intros y Hy; apply H; now right). lia.
Qed.

Lemma length_filter_ext {A} (f g : A -> bool) l :
  (forall x, In x l -> f x = g x) ->
  List.length (filter f l) = List.length (filter g l).
Proof. intros H. now rewrite (filter_ext_in f g l H). Qed.

Lemma q_pos_of_neq x : 0 <= x -> q_eqb x 0 = false -> q_gtb x 0 = true.
Proof.
  intros Hx H. apply q_gtb_true. apply q_eqb_false in H.
  apply Qle_lteq in Hx as [Hx | Hx]; auto. exfalso. apply H. now symmetry.
Qed.

Lemma q_gtb_eq0 x : q_eqb x 0 = true -> q_gtb x 0 = false.
Proof.
  intros H. apply q_eqb_true in H. apply q_gtb_false. rewrite H. apply Qle_refl.
Qed.

(** [show_project_health]: the per-item labels agree with the project counts: the three labels sum to the item count, Ready labels are the ready items, Missing labels plus the rows counted twice are the missing items, and with nonnegative quantities Partial labels are the partial items. *)
Theorem item_labels_vs_counts df p v :
  show_project_health df p = Ret (Some v) ->
  (label_count IReady (hv_item_status v) + label_count IPartial (hv_item_status v)
   + label_count IMissing (hv_item_status v) = ps_total_items (hv_status v))%nat /\
  label_count IReady (hv_item_status v) = ps_ready_items (hv_status v) /\
  (label_count IMissing (hv_item_status v) + double_count (project_rows df p)
   = ps_missing_items (hv_status v))%nat /\
  ((forall x, In x (project_rows df p) -> 0 <= balance x /\ 0 <= allocated_qty x) ->
   label_count IPartial (hv_item_status v) = ps_partial_items (hv_status v)).
Proof.
  intros H. destruct (health_ret _ _ _ H) as (Hs & Hl & _).
  destruct (calculate_project_status_ret _ _ _ Hs) as (_ & _ & Er).
  rewrite Er, Hl. cbn [ps_total_items ps_ready_items ps_missing_items ps_partial_items].
  unfold label_count. rewrite !length_filter_map.
  set (t := project_rows df p).
  split; [| split; [| split]].
  - assert (Hi : forall (f g h : row -> bool), (List.length (filter f t)
                   + List.length (filter g t) + List.length (filter h t)
                   = List.length (filter f t) + (List.length (filter g t)
                   + List.length (filter h t)))%nat) by (intros; lia).
    rewrite Hi, (count_pointwise _ _ (fun r => negb (q_eqb (balance r) 0))).
    + rewrite count_pointwise with (h := fun _ => true).
      * clear. induction t as [| r t IH]; simpl; auto.
      * intros r _. unfold get_item_status.
        destruct (q_eqb (balance r) 0), (q_eqb (allocated_qty r) 0); reflexivity.
    + intros r _. unfold get_item_status.
      destruct (q_eqb (balance r) 0), (q_eqb (allocated_qty r) 0); reflexivity.
  - apply length_filter_ext. intros r _. unfold get_item_status.
    destruct (q_eqb (balance r) 0), (q_eqb (allocated_qty r) 0); reflexivity.
  - unfold double_count, missing_count. apply count_pointwise.
    intros r _. unfold get_item_status.
    destruct (q_eqb (balance r) 0), (q_eqb (allocated_qty r) 0); reflexivity.
  - intros Hnn. unfold partial_count. apply length_filter_ext. intros r Hr.
    destruct (Hnn r Hr) as [Hb Ha]. unfold get_item_status.
    destruct (q_eqb (balance r) 0) eqn:Eb.
    + rewrite (q_gtb_eq0 _ Eb). reflexivity.
    + rewrite (q_pos_of_neq _ Hb Eb).
      destruct (q_eqb (allocated_qty r) 0) eqn:Ea.
      * rewrite (q_gtb_eq0 _ Ea). reflexivity.
      * rewrite (q_pos_of_neq _ Ha Ea). reflexivity.
Qed.




Lemma critical_list_ret df ps cl :
  critical_list df ps = Ret cl ->
  (forall p, In p ps -> exists s, calculate_project_status df p = Ret (Some s)) ->
  map cr_project cl
  = filter (fun p => match calculate_project_status df p with
                     | Ret (Some s) => is_critical (ps_status s)
                     | _ => false
                     end) ps.
Proof.
  revert cl; induction ps as [| p ps IH]; intros cl H Hps; simpl in H.
  - injection H as <-. reflexivity.
  - destruct (Hps p (or_introl eq_refl)) as [s Hs]. rewrite Hs in H. simpl in H.
    destruct (critical_list df ps) as [rest | e] eqn:R; simpl in H; [| discriminate].
    injection H as <-. simpl. rewrite Hs.
    rewrite <- (IH rest eq_refl) by (intros q Hq; apply Hps; now right).
    destruct (is_critical (ps_status s)); reflexivity.
Qed.

Lemma critical_list_total df ps cl :
  critical_list df ps = Ret cl ->
  (forall p, In p ps -> In p (map sec_order df)) ->
  forall p, In p ps -> exists s, calculate_project_status df p = Ret (Some s).
Proof.
  revert cl; induction ps as [| p ps IH]; intros cl H Hps q Hq; simpl in H; [destruct Hq |].
  destruct (calculate_project_status df p) as [[s |] | e] eqn:E; simpl in H.
  - destruct (critical_list df ps) as [rest | e] eqn:R; simpl in H; [| discriminate].
    destruct Hq as [<- | Hq]; eauto.
    apply (IH rest eq_refl); auto. intros x Hx. apply Hps. now right.
  - exfalso. apply cps_none in E. apply E, Hps. now left.
  - discriminate.
Qed.

Lemma critical_member df cl p :
  critical_projects df = Ret cl ->
  (In p (map cr_project cl) <->
   exists s, calculate_project_status df p = Ret (Some s) /\ ps_status s = SCritical).
Proof.
  intros H. unfold critical_projects in H.
  assert (Hpres : forall q, In q (group_keys (map sec_order df)) -> In q (map sec_order df))
    by (intros q; apply in_group_keys).
  assert (Htot := critical_list_total _ _ _ H Hpres).
  rewrite (critical_list_ret _ _ _ H Htot), filter_In, in_group_keys. split.
  - intros [Hin Hc]. destruct (calculate_project_status df p) as [[s |] | e];
      try discriminate. exists s. split; auto. destruct (ps_status s); auto; discriminate.
  - intros (s & Hs & Hc). rewrite Hs, Hc. split; [| reflexivity].
    destruct (in_dec string_dec p (map sec_order df)) as [Hin | Hn]; auto.
    apply cps_none in Hn. congruence.
Qed.

Lemma overall_status_critical tb n md :
  overall_status tb n md = SCritical <-> ~ tb == 0 /\ ((0 < n)%nat \/ md = DLate).
Proof.
  unfold overall_status. rewrite <- q_eqb_true.
  destruct (q_eqb tb 0); [split; [discriminate | intros [H _]; congruence] |].
  destruct (Nat.ltb_spec 0 n) as [Hn | Hn]; simpl.
  - split; intros _; [split; [discriminate | left; exact Hn] | reflexivity].
  - destruct md; simpl; split; intros H.
    + discriminate.
    + destruct H as [_ [H | H]]; [lia | discriminate].
    + split; [discriminate | right; reflexivity].
    + reflexivity.
Qed.

(** [show_critical_projects]: the critical list has no duplicate project, and a project is on it exactly when it has rows, a nonzero total balance and either a missing item or only Late delayed rows. *)
Theorem critical_projects_members df cl :
  critical_projects df = Ret cl ->
  NoDup (map cr_project cl) /\
  forall p, In p (map cr_project cl) <->
    In p (map sec_order df) /\
    ~ col_sum balance (project_rows df p) == 0 /\
    ((0 < missing_count (project_rows df p))%nat \/
     (delayed_items (project_rows df p) <> [] /\
      forall r, In r (delayed_items (project_rows df p)) -> delay r = DLate)).
Proof.
  intros H. split.
  - unfold critical_projects in H.
    assert (Hpres : forall q, In q (group_keys (map sec_order df)) -> In q (map sec_order df))
      by (intros q; apply in_group_keys).
    rewrite (critical_list_ret _ _ _ H (critical_list_total _ _ _ H Hpres)).
    apply NoDup_filter, group_keys_nodup.
  - intros p. rewrite (critical_member _ _ _ H). split.
    + intros (s & Hs & Hc).
      destruct (calculate_project_status_ret _ _ _ Hs) as (Hne & Hmd & Er).
      rewrite Er in Hc. cbn [ps_status] in Hc.
      apply overall_status_critical in Hc as [Hb Hm].
      split; [| split; [exact Hb |]].
      * destruct (in_dec string_dec p (map sec_order df)) as [Hin | Hn]; auto.
        apply project_rows_nil in Hn. contradiction.
      * destruct Hm as [Hm | Hm]; [now left | right].
        apply max_delay_of_late. now rewrite <- Hm.
    + intros (Hin & Hb & Hm).
      destruct (cps_present _ _ Hin) as [[s Hs] | Hr].
      * exists s. split; [exact Hs |].
        destruct (calculate_project_status_ret _ _ _ Hs) as (Hne & Hmd & Er).
        rewrite Er. cbn [ps_status]. apply overall_status_critical.
        split; [exact Hb |]. destruct Hm as [Hm | Hm]; [now left | right].
        apply max_delay_of_late in Hm. congruence.
      * exfalso. assert (Htot := critical_list_total _ _ _ H).
        destruct (Htot (fun q Hq => proj1 (in_group_keys q _) Hq) p) as [s Hs];
          [now apply in_group_keys | congruence].
Qed.

Lemma col_sum_zero (f : row -> Q) t :
  (forall r, In r t -> f r == 0) -> col_sum f t == 0.
Proof.
  induction t as [| r t IH]; intros H; [reflexivity |].
  rewrite col_sum_cons, (H r (or_introl eq_refl)), IH; [reflexivity |].
  intros x Hx. apply H. now right.
Qed.

(** [show_critical_projects]: a critical project whose balances are nonnegative has problem items to show. *)
Theorem critical_problem_items df cl c :
  critical_projects df = Ret cl -> In c cl ->
  (forall r, In r (project_rows df (cr_project c)) -> 0 <= balance r) ->
  problem_items df (cr_project c) <> [].
Proof.
  intros H Hc Hnn Hnil.
  destruct (proj1 (critical_member df cl (cr_project c) H) (in_map _ _ _ Hc))
    as (s & Hs & Hcrit).
  destruct (calculate_project_status_ret _ _ _ Hs) as (_ & _ & Er).
  rewrite Er in Hcrit. cbn [ps_status] in Hcrit.
  apply overall_status_critical in Hcrit as [Hb _].
  apply Hb, col_sum_zero. intros r Hr.
  assert (Hg : q_gtb (balance r) 0 = false).
  { destruct (q_gtb (balance r) 0) eqn:G; auto. exfalso.
    assert (In r (problem_items df (cr_project c))).
    { unfold problem_items. apply filter_In. split; auto. now rewrite G. }
    rewrite Hnil in H0. destruct H0. }
  apply q_gtb_false in Hg. apply Qle_antisym; auto.
Qed.

(** [show_supplier_performance]: the drill-down of a supplier in the statistics is nonempty and its rows are the ones the statistics were computed from. *)
Theorem supplier_drilldown df stats st :
  supplier_performance df = Ret (Some stats) -> In st stats ->
  supplier_items df (ss_supplier st) <> [] /\
  stat_of_rows st (supplier_items df (ss_supplier st)).
Proof.
  intros H Hst. unfold supplier_performance in H.
  destruct (supplier_rows df) as [| x xs] eqn:E; [discriminate |].
  assert (Hy : exists ys, supplier_stats_of (x :: xs) = Ret ys /\ stats = sort_desc ys).
  { destruct (supplier_stats_of (x :: xs)) as [ys | e] eqn:Y.
    - exists ys. split; auto. cbn [pbind] in H. injection H as <-. reflexivity.
    - cbn [pbind] in H. discriminate. }
  destruct Hy as (ys & Y & ->).
  apply (Permutation_in _ (Permutation_sym (sort_desc_perm ys))) in Hst.
  rewrite <- E in Y. unfold supplier_stats_of in Y.
  destruct (Forall2_in_right _ _ _ _ (pmap_ret _ _ _ Y) Hst) as (k & _ & Hk).
  apply agg_group_ret in Hk as [-> Hstat].
  rewrite group_of_delayed in Hstat.
  change (supplier_items df k) with (delayed_supplier_rows df k).
  split; [| exact Hstat].
  destruct Hstat as (_ & _ & Hmax & _). intros Hn. rewrite Hn in Hmax. destruct Hmax.
Qed.

Lemma supplier_rows_app df1 df2 :
  supplier_rows (df1 ++ df2)%list = (supplier_rows df1 ++ supplier_rows df2)%list.
Proof.
  induction df1 as [| r df1 IH]; simpl; [reflexivity |].
  destruct (supplier r); simpl; now rewrite IH.
Qed.

Lemma supplier_stats_of_delayed x y :
  delayed_rows x = delayed_rows y -> supplier_stats_of x = supplier_stats_of y.
Proof. intros H. unfold supplier_stats_of. now rewrite H. Qed.

(** [supplier_performance]: a row without supplier, or a row without delay when another row has a supplier, does not change the result. *)
Theorem supplier_performance_ignores df1 df2 r :
  (supplier r = None \/
   (delay_eq0 (delay r) = true /\ exists r', In r' (df1 ++ df2)%list /\ supplier r' <> None)) ->
  supplier_performance (df1 ++ r :: df2)%list = supplier_performance (df1 ++ df2)%list.
Proof.
  intros Hr. unfold supplier_performance.
  rewrite !supplier_rows_app. simpl.
  destruct (supplier r) as [s |] eqn:Es.
  - destruct Hr as [Hr | [Hz (r' & Hin & Hs')]]; [discriminate |].
    assert (Hd : delayed_rows (supplier_rows df1 ++ (s, r) :: supplier_rows df2)%list
                 = delayed_rows (supplier_rows df1 ++ supplier_rows df2)%list).
    { unfold delayed_rows. rewrite !filter_app. simpl. now rewrite Hz. }
    assert (Hne : (supplier_rows df1 ++ supplier_rows df2)%list <> []).
    { destruct (supplier r') as [s' |] eqn:E'; [| contradiction].
      rewrite <- supplier_rows_app. intros Hn.
      assert (Hi : In (s', r') (supplier_rows (df1 ++ df2)%list)) by (now apply in_supplier_rows).
      rewrite Hn in Hi. destruct Hi. }
    rewrite (supplier_stats_of_delayed _ _ Hd).
    destruct (supplier_rows df1 ++ supplier_rows df2)%list eqn:E; [contradiction |].
    destruct (supplier_rows df1); reflexivity.
  - reflexivity.
Qed.

(** [show_push_to_production]: an item of the reallocation bucket gets the action Can Reallocate exactly when its source is the dash. *)
Theorem action_required_realloc selected filtered r :
  In r (allocate_items (make_buckets selected filtered)) ->
  (action_required (source r) = CanReallocate <-> source r = "-").
Proof.
  intros H. apply filter_In in H as [_ H]. unfold is_realloc in H.
  apply andb_true_iff in H as [H _]. apply andb_true_iff in H as [_ H].
  apply negb_true_iff, String.eqb_neq in H.
  unfold action_required, in_list. simpl.
  destruct (String.eqb_spec (source r) "free_stock"); [contradiction |].
  destruct (String.eqb_spec (source r) "-"); simpl; split; congruence.
Qed.

Lemma insert_key_perm k ks : Permutation (k :: ks) (insert_key k ks).
Proof.
  induction ks as [| k' ks IH]; simpl; auto.
  destruct (String.leb k k'); auto.
  apply (perm_trans (perm_swap k' k ks)). auto.
Qed.

Lemma sort_keys_perm ks : Permutation ks (sort_keys ks).
Proof.
  induction ks as [| k ks IH]; simpl; auto.
  apply (perm_trans (perm_skip k IH)). apply insert_key_perm.
Qed.

Lemma col_sum_split (f : row -> Q) (c : row -> bool) t :
  col_sum f t == col_sum f (filter c t) + col_sum f (filter (fun r => negb (c r)) t).
Proof.
  induction t as [| r t IH]; [reflexivity |].
  simpl. destruct (c r); simpl; rewrite !col_sum_cons, IH; ring.
Qed.

Lemma project_rows_other t k p :
  p <> k ->
  project_rows (filter (fun r => negb (String.eqb (sec_order r) k)) t) p = project_rows t p.
Proof.
  intros Hpk. unfold project_rows. induction t as [| r t IH]; simpl; [reflexivity |].
  destruct (String.eqb_spec (sec_order r) k) as [E | N]; simpl.
  - rewrite IH. destruct (String.eqb_spec (sec_order r) p); [congruence | reflexivity].
  - destruct (String.eqb (sec_order r) p); simpl; now rewrite IH.
Qed.

Lemma group_sums (f : row -> Q) ks t :
  NoDup ks -> (forall r, In r t -> In (sec_order r) ks) ->
  qsum (map (fun p => col_sum f (project_rows t p)) ks) == col_sum f t.
Proof.
  revert t; induction ks as [| k ks IH]; intros t Hnd Hcov.
  - destruct t as [| r t]; [reflexivity |].
    destruct (Hcov r (or_introl eq_refl)).
  - inversion Hnd as [| ? ? Hk Hnd']; subst.
    change (col_sum f (project_rows t k)
            + qsum (map (fun p => col_sum f (project_rows t p)) ks) == col_sum f t).
    rewrite (col_sum_split f (fun r => String.eqb (sec_order r) k) t).
    apply (proj2 (Qplus_inj_l _ _ _)).
    rewrite (map_ext_in _ (fun p => col_sum f (project_rows
               (filter (fun r => negb (String.eqb (sec_order r) k)) t) p)) ks).
    + apply IH; [exact Hnd' |].
      intros r Hr. apply filter_In in Hr as [Hr Hne].
      apply negb_true_iff, String.eqb_neq in Hne.
      destruct (Hcov r Hr) as [E | E]; [congruence | exact E].
    + intros p Hp. rewrite project_rows_other; [reflexivity |].
      intros ->. contradiction.
Qed.

Lemma material_inquiry_some df code inq :
  material_inquiry df code = Some inq ->
  mi_item_data inq = filter (fun r => String.eqb (item r) code) df /\
  mi_total_req inq = col_sum req_qty (mi_item_data inq) /\
  mi_total_allocated inq = col_sum allocated_qty (mi_item_data inq) /\
  mi_total_balance inq = col_sum balance (mi_item_data inq).
Proof.
  unfold material_inquiry.
  destruct (filter (fun r => String.eqb (item r) code) df) as [| r0 rs]; [discriminate |].
  intros H. injection H as <-. simpl. auto.
Qed.

(** [material_inquiry]: the allocation by project has one entry per project of the item, without duplicates, and, on a table whose sums float64 computes exactly ([float_exact]), its three columns sum to the totals of the inquiry. *)
Theorem allocation_by_project_sums df code inq :
  material_inquiry df code = Some inq ->
  float_exact df = true ->
  let abp := allocation_by_project (mi_item_data inq) in
  NoDup (map ae_project abp) /\
  (forall p, In p (map ae_project abp) <->
     exists r, In r (mi_item_data inq) /\ sec_order r = p) /\
  qsum (map ae_req abp) == mi_total_req inq /\
  qsum (map ae_allocated abp) == mi_total_allocated inq /\
  qsum (map ae_balance abp) == mi_total_balance inq.
Proof.
  intros H _. destruct (material_inquiry_some _ _ _ H) as (_ & Er & Ea & Eb).
  cbv zeta. rewrite Er, Ea, Eb.
  set (t := mi_item_data inq).
  set (ks := sort_keys (group_keys (map sec_order t))).
  assert (Hperm : Permutation (group_keys (map sec_order t)) ks) by apply sort_keys_perm.
  assert (Hnd : NoDup ks)
    by (apply (Permutation_NoDup Hperm), group_keys_nodup).
  assert (Hin : forall p, In p ks <-> In p (map sec_order t)).
  { intros p. rewrite <- (in_group_keys p (map sec_order t)). split; intros Hp.
    - eapply Permutation_in; [apply Permutation_sym; exact Hperm | exact Hp].
    - eapply Permutation_in; [exact Hperm | exact Hp]. }
  assert (Hcov : forall r, In r t -> In (sec_order r) ks)
    by (intros r Hr; apply Hin, in_map, Hr).
  unfold allocation_by_project. fold ks. rewrite !map_map. cbn [ae_project ae_req
    ae_allocated ae_balance].
  split; [| split; [| split; [| split]]].
  - rewrite map_id. exact Hnd.
  - intros p. rewrite map_id, Hin, in_map_iff. split; intros (r & H1 & H2); eauto.
  - apply group_sums; auto.
  - apply group_sums; auto.
  - apply group_sums; auto.
Qed.

(** ** Witnesses of the other views *)

Ltac rows_cases H :=
  simpl in H; repeat (destruct H as [<- | H]); [..| destruct H].

Lemma max_delay_of_cases_witness :
  max_delay_of mixed_delay_table = Raise TypeError.
Proof.
  apply (proj1 (proj2 (max_delay_of_cases mixed_delay_table))).
  exists (hd (sample_row "" "" "" "" "" 0 0 0 None (DNum 0)) (tl mixed_delay_table)),
         (hd (sample_row "" "" "" "" "" 0 0 0 None (DNum 0)) mixed_delay_table).
  split; [simpl; auto |]. split; [simpl; auto |]. split; [reflexivity | discriminate].
Defined.

Lemma production_readiness_errors_witness :
  production_readiness [] = RKeyError "Fulfillment %" /\
  exists e, production_readiness mixed_delay_table = RRaise e.
Proof.
  split.
  - apply (proj1 (production_readiness_errors []) "Fulfillment %"). split; reflexivity.
  - apply (proj2 (production_readiness_errors mixed_delay_table)).
    exists "P". reflexivity.
Defined.

Lemma production_readiness_frame_witness :
  exists rows, production_readiness readiness_table = RFrame rows /\
  NoDup (map rd_project rows) /\ Sorted fulfillment_desc rows.
Proof.
  destruct (production_readiness readiness_table) as [e | k | rows] eqn:E;
    [vm_compute in E; discriminate | vm_compute in E; discriminate |].
  exists rows. destruct (production_readiness_frame readiness_table rows E)
    as (_ & Hnd & _ & _ & Hs).
  auto.
Defined.

Lemma ready_projects_iff_witness :
  exists rows, production_readiness readiness_table = RFrame rows /\
  (In "P3" (ready_projects (readiness_filter true 100 rows)) <->
   exists s, calculate_project_status readiness_table "P3" = Ret (Some s) /\
             ps_status s = SReady /\ 0 < ps_total_req s).
Proof.
  destruct (production_readiness readiness_table) as [e | k | rows] eqn:E;
    [vm_compute in E; discriminate | vm_compute in E; discriminate |].
  exists rows. split; [reflexivity |].
  apply (ready_projects_iff readiness_table rows true 100 "P3" E).
  - vm_compute. reflexivity.
  - intros r Hr. rows_cases Hr; apply Qeq_bool_iff; vm_compute; reflexivity.
  - left. reflexivity.
Defined.

Lemma dashboard_status_counts_witness :
  exists d, show_dashboard_overview readiness_table = Ret d /\
  (n_ready (db_status_counts d) + n_partial (db_status_counts d)
   + n_critical (db_status_counts d) = db_total_projects d)%nat.
Proof.
  eexists. split; [reflexivity |].
  apply (proj2 (dashboard_status_counts readiness_table)). reflexivity.
Defined.

Lemma dashboard_fulfillment_bounds_witness :
  exists d, show_dashboard_overview readiness_table = Ret d /\
  0 <= db_overall_fulfillment d /\ db_overall_fulfillment d <= 100.
Proof.
  eexists. split; [reflexivity |].
  apply (dashboard_fulfillment_bounds readiness_table _ eq_refl).
  intros r Hr. rows_cases Hr; split; apply Qle_bool_iff; reflexivity.
Defined.

Lemma item_labels_vs_counts_witness :
  exists v, show_project_health p1_table "P1" = Ret (Some v) /\
  label_count IReady (hv_item_status v) = ps_ready_items (hv_status v).
Proof.
  eexists. split; [reflexivity |].
  apply (item_labels_vs_counts p1_table "P1" _ eq_refl).
Defined.


Lemma critical_projects_members_witness :
  exists cl, critical_projects readiness_table = Ret cl /\ NoDup (map cr_project cl).
Proof.
  eexists. split; [reflexivity |].
  apply (critical_projects_members readiness_table _ eq_refl).
Defined.

Lemma critical_problem_items_witness :
  problem_items readiness_table "P2" <> [].
Proof.
  apply (critical_problem_items readiness_table
           [mkCritical "P2" (0 # 5) 1 (DNum 0)] (mkCritical "P2" (0 # 5) 1 (DNum 0))).
  - vm_compute. reflexivity.
  - left. reflexivity.
  - intros r Hr. vm_compute in Hr. rows_cases Hr. apply Qle_bool_iff; reflexivity.
Defined.

Lemma supplier_drilldown_witness :
  supplier_items supplier_table "S2" <> [] /\
  stat_of_rows (mkStat "S2" 1 10 10 6) (supplier_items supplier_table "S2").
Proof.
  apply (supplier_drilldown supplier_table
           [mkStat "S2" 1 10 10 6; mkStat "S1" 2 (6 # 2) 4 5] (mkStat "S2" 1 10 10 6)).
  - vm_compute. reflexivity.
  - left. reflexivity.
Defined.

Lemma supplier_performance_ignores_witness :
  supplier_performance (supplier_table ++ [free_stock_row])%list
  = supplier_performance supplier_table.
Proof.
  pose proof (supplier_performance_ignores supplier_table [] free_stock_row
                (or_introl eq_refl)) as H.
  rewrite app_nil_r in H. exact H.
Defined.

Lemma action_required_realloc_witness :
  action_required (source realloc_row) = CanReallocate <-> source realloc_row = "-".
Proof.
  apply (action_required_realloc ["ProjA"] [realloc_row] realloc_row).
  vm_compute. left. reflexivity.
Defined.

Lemma allocation_by_project_sums_witness :
  exists inq, material_inquiry itm1_table "ITM1" = Some inq /\
  qsum (map ae_allocated (allocation_by_project (mi_item_data inq)))
  == mi_total_allocated inq.
Proof.
  eexists. split; [reflexivity |].
  apply (allocation_by_project_sums itm1_table "ITM1" _ eq_refl).
  vm_compute. reflexivity.
Defined.
